(** * Zettel Links plugin: link formatter and link-resolution override

    A shallow embedding of the two pieces of logic of [main.ts]:

    - [FileSelectModal.onChooseItem] computes the text inserted for a chosen
      file (the "link formatter", [format] below);
    - the closure that [ZettelLinksPlugin.setupLinkResolution] installs over
      [metadataCache.getFirstLinkpathDest] (the "link resolver", [resolve]
      below), together with the [LinkChooserModal] callbacks that write the
      plugin's [chooserOpen] and [lastChosenFile] fields.

    JavaScript strings are sequences of UTF-16 code units; they are modelled
    as lists of numbers.  Operations that can raise a [TypeError] at run time
    return a [completion]. *)

From Stdlib Require Import List NArith ZArith Bool Arith Lia String Ascii.
Import ListNotations.

(** ** JavaScript strings *)

Definition code_unit := N.
Definition jsstring := list code_unit.

(** An ASCII literal as a JavaScript string. *)
Definition str (s : string) : jsstring :=
  map N_of_ascii (list_ascii_of_string s).

(** [\d] without the [u]/[v] flags: the ten characters [0-9]. *)
Definition isDecimalDigit (c : code_unit) : bool :=
  ((48 <=? c) && (c <=? 57))%N.

(** ECMAScript LineTerminator: LF, CR, LS (U+2028), PS (U+2029). *)
Definition isLineTerminator (c : code_unit) : bool :=
  ((c =? 10) || (c =? 13) || (c =? 8232) || (c =? 8233))%N.

(** ECMAScript WhiteSpace: TAB, VT, FF, SP, NBSP, ZWNBSP and category Zs. *)
Definition isWhiteSpace (c : code_unit) : bool :=
  ((c =? 9) || (c =? 11) || (c =? 12) || (c =? 32) || (c =? 160)
   || (c =? 5760) || ((8192 <=? c) && (c <=? 8202))
   || (c =? 8239) || (c =? 8287) || (c =? 12288) || (c =? 65279))%N.

(** The characters [String.prototype.trim] strips. *)
Definition isTrimmed (c : code_unit) : bool :=
  isWhiteSpace c || isLineTerminator c.

Fixpoint trimStart (s : jsstring) : jsstring :=
  match s with
  | [] => []
  | c :: s' => if isTrimmed c then trimStart s' else s
  end.

Definition trimEnd (s : jsstring) : jsstring :=
  rev (trimStart (rev s)).

(** [String.prototype.trim]. *)
Definition trim (s : jsstring) : jsstring :=
  trimEnd (trimStart s).

Fixpoint startsWith (s t : jsstring) : bool :=
  match t, s with
  | [], _ => true
  | _ :: _, [] => false
  | d :: t', c :: s' => (c =? d)%N && startsWith s' t'
  end.

(** [String.prototype.includes]: [t] occurs in [s] as a contiguous run. *)
Fixpoint includes (s t : jsstring) : bool :=
  startsWith s t ||
  match s with
  | [] => false
  | _ :: s' => includes s' t
  end.

(** Truthiness of a string value: every string but the empty one. *)
Definition truthy (s : jsstring) : bool :=
  match s with
  | [] => false
  | _ :: _ => true
  end.

(** ** Abrupt completion *)

Inductive js_error := TypeError.

Inductive completion (A : Type) : Type :=
| Normal (a : A)
| Throw (e : js_error).
Arguments Normal {A} a.
Arguments Throw {A} e.

Definition bind {A B : Type} (m : completion A) (k : A -> completion B)
  : completion B :=
  match m with
  | Normal a => k a
  | Throw e => Throw e
  end.

Notation "x <- m ;; k" := (bind m (fun x => k))
  (at level 61, m at next level, right associativity).

(** A value that may be [undefined], as an element read out of an array. *)
Definition js_value := option jsstring.

(** [`${v}`]: an undefined value is rendered as the word "undefined". *)
Definition interpolate (v : js_value) : jsstring :=
  match v with
  | Some s => s
  | None => str "undefined"
  end.

(** [v.trim()]: a method call on [undefined] raises a [TypeError]. *)
Definition call_trim (v : js_value) : completion jsstring :=
  match v with
  | Some s => Normal (trim s)
  | None => Throw TypeError
  end.

(** ** Plugin settings *)

Record ZettelLinkSettings := {
  extractTimestamps : bool;
  timestampLength : nat;
  showFullPath : bool;
  appendFileName : bool;
  enableLinkResolution : bool;
  enablePartialMatching : bool
}.

Definition DEFAULT_SETTINGS : ZettelLinkSettings := {|
  extractTimestamps := true;
  timestampLength := 12;
  showFullPath := true;
  appendFileName := true;
  enableLinkResolution := true;
  enablePartialMatching := true
|}.

(** ** The timestamp pattern

    The source builds the pattern from a template: the start anchor, a
    first group of exactly N digits ([\d{N}], N the configured timestamp
    length), a second group [.*] and the end anchor.  The expression has no
    flags, so the start anchor holds at index 0 only and the end anchor at
    the end of the input only; a match can therefore start at index 0 only.

    The length reaches the template as a number.  The definitions below take
    it as the count N of the quantifier, which is what the template gives
    while the number is written out in plain digits, that is below 10^21
    ([rendersAsDigits]); from there on the number is written with an
    exponent and the braces no longer form a quantifier. *)

(** The first group: exactly [n] digits are consumed; the result is the
    captured run and the input left after it. *)
Fixpoint match_digits (n : nat) (s : jsstring) : option (jsstring * jsstring) :=
  match n with
  | O => Some ([], s)
  | S n' =>
      match s with
      | [] => None
      | c :: s' =>
          if isDecimalDigit c then
            match match_digits n' s' with
            | Some (d, r) => Some (c :: d, r)
            | None => None
            end
          else None
      end
  end.

(** The second group and the end anchor: the dot is every character but a
    line terminator.  The greedy star stops in front of the first line
    terminator, where the end anchor fails, and so does every shorter run
    the star backtracks to. *)
Fixpoint match_rest (s : jsstring) : option jsstring :=
  match s with
  | [] => Some []
  | c :: s' =>
      if isLineTerminator c then None
      else
        match match_rest s' with
        | Some r => Some (c :: r)
        | None => None
        end
  end.

(** [fileName.match(timestampPattern)]: [None] for [null], otherwise the
    match array (the whole match, then the two captures). *)
Definition timestampPattern_match (n : nat) (fileName : jsstring)
  : option (list jsstring) :=
  match match_digits n fileName with
  | None => None
  | Some (d, s) =>
      match match_rest s with
      | None => None
      | Some r => Some [d ++ r; d; r]
      end
  end.

(** ** Link formatter

    The computation of [insertionText] in [FileSelectModal.onChooseItem];
    the method then hands the text to [editor.replaceRange]. *)
Definition format (fileName : jsstring) (settings : ZettelLinkSettings)
  : completion jsstring :=
  if extractTimestamps settings then
    match timestampPattern_match (timestampLength settings) fileName with
    | Some timestampMatch =>
        let timestamp := nth_error timestampMatch 1 in
        restName <- call_trim (nth_error timestampMatch 2) ;;
        if appendFileName settings && truthy restName then
          Normal (str "[[" ++ interpolate timestamp ++ str "]] " ++ restName)
        else
          Normal (str "[[" ++ interpolate timestamp ++ str "]]")
    | None => Normal (str "[[" ++ fileName ++ str "]]")
    end
  else Normal (str "[[" ++ fileName ++ str "]]").

(** Length of the run of decimal digits a string starts with. *)
Fixpoint leadingDigits (s : jsstring) : nat :=
  match s with
  | c :: s' => if isDecimalDigit c then S (leadingDigits s') else O
  | [] => O
  end.

(** Every character of [s] is one the dot of a pattern accepts. *)
Definition noLineTerminator (s : jsstring) : bool :=
  forallb (fun c => negb (isLineTerminator c)) s.

(** The settings of the spec's scenarios: only the formatter's three fields
    vary. *)
Definition mkSettings (extract : bool) (n : nat) (append : bool)
  : ZettelLinkSettings := {|
  extractTimestamps := extract;
  timestampLength := n;
  showFullPath := true;
  appendFileName := append;
  enableLinkResolution := true;
  enablePartialMatching := true
|}.

(** ** Candidate files and the chooser modal *)

(** The two string views of a host file the plugin reads. *)
Record TFile := {
  path : jsstring;
  basename : jsstring
}.

(** A [LinkChooserModal] instance: the link text it was opened for and the
    files it lists.  Its [resolve] field is always the callback built in
    [setupLinkResolution] ([chooserCallback] below). *)
Record LinkChooserModal := {
  chooser_linktext : jsstring;
  chooser_matches : list TFile
}.

(** The plugin object's fields the resolver reads and writes, and the
    chooser modals the host currently shows. *)
Record State := {
  settings : ZettelLinkSettings;
  chooserOpen : bool;
  lastChosenFile : option TFile;
  openChoosers : list LinkChooserModal
}.

(** The plugin after [onload]: [chooserOpen = false],
    [lastChosenFile = null], no modal on screen. *)
Definition initial (s : ZettelLinkSettings) : State := {|
  settings := s;
  chooserOpen := false;
  lastChosenFile := None;
  openChoosers := []
|}.

(** The callback handed to [LinkChooserModal]: it stores the choice and
    clears the flag (and resolves a promise nobody holds). *)
Definition chooserCallback (file : option TFile) (st : State) : State := {|
  settings := settings st;
  chooserOpen := false;
  lastChosenFile := file;
  openChoosers := openChoosers st
|}.

(** [modal.close()] for the [i]-th modal on screen. *)
Definition closeChooser (i : nat) (st : State) : State := {|
  settings := settings st;
  chooserOpen := chooserOpen st;
  lastChosenFile := lastChosenFile st;
  openChoosers := firstn i (openChoosers st) ++ skipn (S i) (openChoosers st)
|}.

(** [this.chooserOpen = true; new LinkChooserModal(...).open()]. *)
Definition openChooserModal (linktext : jsstring) (matches : list TFile)
  (st : State) : State := {|
  settings := settings st;
  chooserOpen := true;
  lastChosenFile := lastChosenFile st;
  openChoosers :=
    {| chooser_linktext := linktext; chooser_matches := matches |}
      :: openChoosers st
|}.

(** [String.prototype.toLowerCase] restricted to the letters A-Z; it agrees
    with the built-in on ASCII strings and instantiates the resolver in the
    concrete scenarios. *)
Definition asciiToLowerCase (s : jsstring) : jsstring :=
  map (fun c => if ((65 <=? c) && (c <=? 90))%N then (c + 32)%N else c) s.

(** ** Link resolver *)

Section Resolver.

(** [String.prototype.toLowerCase]: the Unicode case tables are the
    engine's, not the plugin's. *)
Variable toLowerCase : jsstring -> jsstring.

(** [allFiles.filter(f => f.basename.toLowerCase().includes(linktextLower))]. *)
Definition partialMatches (linktext : jsstring) (allFiles : list TFile)
  : list TFile :=
  let linktextLower := toLowerCase linktext in
  filter (fun f => includes (toLowerCase (basename f)) linktextLower)
         allFiles.

(** The closure installed over [getFirstLinkpathDest].  [file] is what the
    host's own function returned for the link text, [allFiles] what
    [vault.getMarkdownFiles()] returns.  The result is the returned value
    and the state the call leaves. *)
Definition resolve (st : State) (linktext : jsstring)
  (allFiles : list TFile) (file : option TFile) : option TFile * State :=
  match file with
  | Some f => (Some f, st)
  | None =>
      if negb (enablePartialMatching (settings st)) then (None, st)
      else
        let matches := partialMatches linktext allFiles in
        if (1 <? List.length matches) && negb (chooserOpen st) then
          (lastChosenFile st, openChooserModal linktext matches st)
        else if List.length matches =? 1 then (nth_error matches 0, st)
        else (None, st)
  end.

(** [metadataCache.getFirstLinkpathDest] as [setupLinkResolution] leaves
    it: the closure when link resolution is enabled, the host's own
    function otherwise. *)
Definition getFirstLinkpathDest (st : State) (linktext : jsstring)
  (allFiles : list TFile) (file : option TFile) : option TFile * State :=
  if enableLinkResolution (settings st) then
    resolve st linktext allFiles file
  else (file, st).

(** What can happen to the plugin between two states. *)
Inductive event :=
| Request (linktext : jsstring) (allFiles : list TFile)
          (file result : option TFile)
| ClickItem (i : nat) (file : TFile)
| ClickCancel (i : nat)
| Dismiss (i : nat)
| SaveSettings (s : ZettelLinkSettings).

Inductive step : State -> event -> State -> Prop :=
| step_request st linktext allFiles file :
    step st
         (Request linktext allFiles file
                  (fst (getFirstLinkpathDest st linktext allFiles file)))
         (snd (getFirstLinkpathDest st linktext allFiles file))
(** A click on a listed file: [this.resolve(file); this.close()]. *)
| step_click_item st i m file :
    nth_error (openChoosers st) i = Some m ->
    In file (chooser_matches m) ->
    step st (ClickItem i file)
         (closeChooser i (chooserCallback (Some file) st))
(** The Cancel button: [this.resolve(null); this.close()]. *)
| step_click_cancel st i m :
    nth_error (openChoosers st) i = Some m ->
    step st (ClickCancel i) (closeChooser i (chooserCallback None st))
(** The host closes the modal (Escape, click outside): only [onClose]
    runs, the callback does not. *)
| step_dismiss st i m :
    nth_error (openChoosers st) i = Some m ->
    step st (Dismiss i) (closeChooser i st)
(** The settings tab stores a new record. *)
| step_save_settings st s :
    step st (SaveSettings s)
         {| settings := s;
            chooserOpen := chooserOpen st;
            lastChosenFile := lastChosenFile st;
            openChoosers := openChoosers st |}.

Inductive reachable : State -> Prop :=
| reachable_initial s : reachable (initial s)
| reachable_step st e st' : reachable st -> step st e st' -> reachable st'.

(** The reading of the single-prompt guard under which a request made
    while the flag is set is answered from the stored outcome. *)
Definition guarded_request_reuses_outcome : Prop :=
  forall st, reachable st ->
    List.length (openChoosers st) <= 1 /\
    (chooserOpen st = true ->
     forall linktext allFiles file,
       openChoosers (snd (resolve st linktext allFiles file))
         = openChoosers st /\
       fst (resolve st linktext allFiles file) = lastChosenFile st).

End Resolver.

(** At most one chooser modal is on screen, and none while the flag is
    clear. *)
Definition single_chooser (st : State) : Prop :=
  List.length (openChoosers st) <= 1 /\
  (chooserOpen st = false -> openChoosers st = []).

(** ** The files and states of the scenarios *)

Definition fileA : TFile :=
  {| path := str "2025-budget.md"; basename := str "2025-budget" |}.

Definition fileB : TFile :=
  {| path := str "2025-plan.md"; basename := str "2025-plan" |}.

Definition fileC : TFile :=
  {| path := str "Recipes.md"; basename := str "Recipes" |}.

Definition chooser2025 : LinkChooserModal :=
  {| chooser_linktext := str "2025"; chooser_matches := [fileA; fileB] |}.

(** A first prompt is on screen, nothing was ever chosen. *)
Definition chooser_pending : State := {|
  settings := DEFAULT_SETTINGS;
  chooserOpen := true;
  lastChosenFile := None;
  openChoosers := [chooser2025]
|}.

(** The user picked [fileB] in the first prompt. *)
Definition chooser_answered : State := {|
  settings := DEFAULT_SETTINGS;
  chooserOpen := false;
  lastChosenFile := Some fileB;
  openChoosers := []
|}.

(** A second prompt is on screen while the slot still holds the first
    prompt's answer. *)
Definition chooser_reopened : State := {|
  settings := DEFAULT_SETTINGS;
  chooserOpen := true;
  lastChosenFile := Some fileB;
  openChoosers := [chooser2025]
|}.

(** * The rest of the plugin *)

(** ** Earlier formatters *)

(** [onChooseItem] of the first modal version and [selectSuggestion] of the
    editor-suggest version: the same pattern with the length fixed at twelve,
    and the title always appended when there is one. *)
Definition onChooseItem_fixed (fileName : jsstring) : completion jsstring :=
  match timestampPattern_match 12 fileName with
  | Some timestampMatch =>
      let timestamp := nth_error timestampMatch 1 in
      restName <- call_trim (nth_error timestampMatch 2) ;;
      Normal (str "[[" ++ interpolate timestamp ++ str "]]"
                ++ (if truthy restName then str " " ++ restName else []))
  | None => Normal (str "[[" ++ fileName ++ str "]]")
  end.

(** The pattern of [ZettelLinkSuggest.selectSuggestion]: twelve digits at
    the start, then a group that takes every character, line terminators
    included, up to the end of the input; there is no end anchor. *)
Definition suggestPattern_match (filename : jsstring)
  : option (list jsstring) :=
  match match_digits 12 filename with
  | None => None
  | Some (d, r) => Some [d ++ r; d; r]
  end.

(** The text [ZettelLinkSuggest.selectSuggestion] puts in the editor. *)
Definition selectSuggestion_text (filename : jsstring)
  : completion jsstring :=
  match suggestPattern_match filename with
  | Some m =>
      rest <- call_trim (nth_error m 2) ;;
      Normal (str "[[" ++ interpolate (nth_error m 1) ++ str "]] " ++ rest)
  | None => Normal (str "[[" ++ filename ++ str "]]")
  end.

(** ** The editor line and the trigger sequence *)

(** The line the cursor is on and the cursor's column. *)
Record Editor := {
  line : jsstring;
  ch : nat
}.

(** [editor.replaceRange(text, from, to)] within one line. *)
Definition replaceRange (text : jsstring) (from to : nat) (l : jsstring)
  : jsstring :=
  firstn from l ++ text ++ skipn to l.

(** [s.substring(a, b)] for indices that are not negative: both are clamped
    to the length and swapped when out of order. *)
Definition substring (s : jsstring) (a b : nat) : jsstring :=
  let a' := Nat.min a (List.length s) in
  let b' := Nat.min b (List.length s) in
  firstn (Nat.max a' b' - Nat.min a' b') (skipn (Nat.min a' b') s).

Fixpoint jsstring_eqb (s t : jsstring) : bool :=
  match s, t with
  | [], [] => true
  | c :: s', d :: t' => (c =? d)%N && jsstring_eqb s' t'
  | _, _ => false
  end.

(** [autoPairMap[char] || char]: the closer of the seven openers the map
    lists, the character itself otherwise. *)
Definition autoPair (c : code_unit) : code_unit :=
  if (c =? 123)%N then 125%N        (* braces *)
  else if (c =? 91)%N then 93%N     (* square brackets *)
  else if (c =? 40)%N then 41%N     (* parentheses *)
  else if (c =? 60)%N then 62%N     (* angle brackets *)
  else c.                           (* the three quotes close themselves *)

(** The loop that builds [expectedClosing]: [i] runs from the last index of
    the trigger sequence down to 0; [n] is [i + 1]. *)
Fixpoint closingLoop (triggerSequence : jsstring) (n : nat)
  (expectedClosing : jsstring) : jsstring :=
  match n with
  | O => expectedClosing
  | S i =>
      match nth_error triggerSequence i with
      | Some char =>
          closingLoop triggerSequence i (expectedClosing ++ [autoPair char])
      | None => closingLoop triggerSequence i (expectedClosing ++ str "undefined")
      end
  end.

Definition expectedClosing (triggerSequence : jsstring) : jsstring :=
  closingLoop triggerSequence (List.length triggerSequence) [].

(** How many characters after the cursor the clean-up deletes: the whole
    closing sequence when the text starts with it, else its first character
    when the text starts with that, else none. *)
Definition charsToRemove (expected afterCursor : jsstring) : nat :=
  if truthy expected && startsWith afterCursor expected then
    List.length expected
  else if 0 <? List.length expected then
    match expected with
    | firstClosingChar :: _ =>
        if startsWith afterCursor [firstClosingChar] then 1 else 0
    | [] => 0
    end
  else 0.

(** [onChooseItem] of the trigger-sequence version: the same link text as
    [format], inserted at the cursor after the clean-up of auto-paired
    closers.  The result is the line's new text. *)
Definition onChooseItem_trigger (settings : ZettelLinkSettings)
  (triggerSequence fileName : jsstring) (ed : Editor) : completion jsstring :=
  insertionText <- format fileName settings ;;
  let afterCursor := skipn (ch ed) (line ed) in
  let n := charsToRemove (expectedClosing triggerSequence) afterCursor in
  let line1 :=
    if 0 <? n then replaceRange [] (ch ed) (ch ed + n) (line ed)
    else line ed in
  Normal (replaceRange insertionText (ch ed) (ch ed) line1).

(** [FileSelectModal.onChooseItem] of the current version: the link text is
    put at the cursor and nothing is deleted.  The result is the line's new
    text. *)
Definition onChooseItem (settings : ZettelLinkSettings)
  (fileName : jsstring) (ed : Editor) : completion jsstring :=
  insertionText <- format fileName settings ;;
  Normal (replaceRange insertionText (ch ed) (ch ed) (line ed)).

(** The keydown listener of the first version, which has the two braces
    built in: it looks at the two characters before the cursor when the
    brace key goes down.  [None] and [Some] are as for [onKeydown] below. *)
Definition onKeydown_braces (key : jsstring) (activeLeaf : option Editor)
  : option Editor :=
  if jsstring_eqb key (str "{") then
    match activeLeaf with
    | None => None
    | Some ed =>
        if ch ed <? 2 then None
        else if jsstring_eqb (substring (line ed) (ch ed - 2) (ch ed))
                             (str "{{") then
          Some {| line := replaceRange [] (ch ed - 2) (ch ed) (line ed);
                  ch := ch ed - 2 |}
        else None
    end
  else None.

(** The keydown listener of the trigger-sequence version.  [key] is
    [evt.key], [activeLeaf] the editor of the active markdown view, if any.
    [None]: the listener returns without doing anything.  [Some ed]: the
    default action of the key is prevented, the trigger prefix is deleted
    and the file modal is opened on [ed] (the host moves a cursor that sat
    at the end of a deleted range to the start of it). *)
Definition onKeydown (triggerSequence key : jsstring)
  (activeLeaf : option Editor) : option Editor :=
  if List.length triggerSequence <? 2 then None
  else
    match nth_error triggerSequence (List.length triggerSequence - 1) with
    | None => None
    | Some lastChar =>
        if jsstring_eqb key [lastChar] then
          match activeLeaf with
          | None => None
          | Some ed =>
              let triggerPrefix :=
                substring triggerSequence 0
                          (List.length triggerSequence - 1) in
              let textBefore :=
                substring (line ed) (ch ed - List.length triggerPrefix)
                          (ch ed) in
              if jsstring_eqb textBefore triggerPrefix then
                Some {| line :=
                          replaceRange []
                            (ch ed - List.length triggerPrefix) (ch ed)
                            (line ed);
                        ch := ch ed - List.length triggerPrefix |}
              else None
          end
        else None
    end.

(** ** The file modal's suggestion list *)

Section Suggestions.

Variable toLowerCase : jsstring -> jsstring.

(** [file.name]: the host's file name with its extension. *)
Variable name : TFile -> jsstring.

(** [FileSelectModal.getSuggestions]. *)
Definition getSuggestions (vaultFiles : list TFile) (query : jsstring)
  : list TFile :=
  filter (fun file => includes (toLowerCase (name file)) (toLowerCase query))
         vaultFiles.

(** [FileSelectModal.renderSuggestion]: the text set on the list element. *)
Definition renderSuggestion (settings : ZettelLinkSettings) (file : TFile)
  : jsstring :=
  if showFullPath settings then path file else basename file.

End Suggestions.

(** ** Loading the settings *)

(** What [loadData] returns: each field is there or not. *)
Record SettingsData := {
  data_extractTimestamps : option bool;
  data_timestampLength : option nat;
  data_showFullPath : option bool;
  data_appendFileName : option bool;
  data_enableLinkResolution : option bool;
  data_enablePartialMatching : option bool
}.

Definition orElse {A : Type} (o : option A) (d : A) : A :=
  match o with
  | Some a => a
  | None => d
  end.

(** [Object.assign({}, base, data)]: the fields of [data] win. *)
Definition assign (base : ZettelLinkSettings) (data : SettingsData)
  : ZettelLinkSettings := {|
  extractTimestamps := orElse (data_extractTimestamps data)
                              (extractTimestamps base);
  timestampLength := orElse (data_timestampLength data) (timestampLength base);
  showFullPath := orElse (data_showFullPath data) (showFullPath base);
  appendFileName := orElse (data_appendFileName data) (appendFileName base);
  enableLinkResolution := orElse (data_enableLinkResolution data)
                                 (enableLinkResolution base);
  enablePartialMatching := orElse (data_enablePartialMatching data)
                                  (enablePartialMatching base)
|}.

(** [loadSettings]; [None] is the [null] of a plugin that never saved. *)
Definition loadSettings (loaded : option SettingsData) : ZettelLinkSettings :=
  match loaded with
  | Some data => assign DEFAULT_SETTINGS data
  | None => DEFAULT_SETTINGS
  end.

(** ** The settings tab *)

(** The value of a character as a digit of the radix, if it is one. *)
Definition digitValue (radix : Z) (c : code_unit) : option Z :=
  let v :=
    if isDecimalDigit c then Some (Z.of_N c - 48)%Z
    else if ((97 <=? c) && (c <=? 122))%N then Some (Z.of_N c - 87)%Z
    else if ((65 <=? c) && (c <=? 90))%N then Some (Z.of_N c - 55)%Z
    else None in
  match v with
  | Some d => if (d <? radix)%Z then Some d else None
  | None => None
  end.

(** The integer of the longest run of digits [s] starts with; [acc] is the
    value read so far, [None] while no digit was read. *)
Fixpoint parseDigits (radix : Z) (acc : option Z) (s : jsstring) : option Z :=
  match s with
  | [] => acc
  | c :: s' =>
      match digitValue radix c with
      | Some d => parseDigits radix (Some (radix * orElse acc 0 + d)%Z) s'
      | None => acc
      end
  end.

(** [parseInt(string)] without a radix: leading white space is skipped, a
    sign is read, a "0x" or "0X" prefix selects radix 16, the digits that
    follow are read and the rest is ignored.  [None] is [NaN].  The result
    is the integer the digits denote; the engine rounds it to a double,
    which is the same number in the safe range ([isSafeInteger], below
    2^53).  What is said of the value stored is said within that range; what
    is said of the sign or of [NaN] holds of the double as well. *)
Definition parseInt (string : jsstring) : option Z :=
  let trimmed := trimStart string in
  let sign := match trimmed with
              | 45%N :: _ => (-1)%Z
              | _ => 1%Z
              end in
  let unsigned := match trimmed with
                  | 43%N :: rest => rest
                  | 45%N :: rest => rest
                  | _ => trimmed
                  end in
  let '(radix, digits) := match unsigned with
                          | 48%N :: 120%N :: rest => (16%Z, rest)
                          | 48%N :: 88%N :: rest => (16%Z, rest)
                          | _ => (10%Z, unsigned)
                          end in
  match parseDigits radix None digits with
  | Some mathInt => Some (sign * mathInt)%Z
  | None => None
  end.

(** The [onChange] handlers of [ZettelLinksSettingTab.display], by the
    control they belong to. *)
Inductive tab_event :=
| ToggleExtractTimestamps (value : bool)
| EditTimestampLength (value : jsstring)
| ToggleShowFullPath (value : bool)
| ToggleAppendFileName (value : bool)
| ToggleLinkResolution (value : bool)
| TogglePartialMatching (value : bool).

Definition onChange (e : tab_event) (s : ZettelLinkSettings)
  : ZettelLinkSettings :=
  match e with
  | ToggleExtractTimestamps value => {|
      extractTimestamps := value;
      timestampLength := timestampLength s;
      showFullPath := showFullPath s;
      appendFileName := appendFileName s;
      enableLinkResolution := enableLinkResolution s;
      enablePartialMatching := enablePartialMatching s |}
  | EditTimestampLength value =>
      match parseInt value with
      | Some num =>
          if (0 <? num)%Z then {|
            extractTimestamps := extractTimestamps s;
            timestampLength := Z.to_nat num;
            showFullPath := showFullPath s;
            appendFileName := appendFileName s;
            enableLinkResolution := enableLinkResolution s;
            enablePartialMatching := enablePartialMatching s |}
          else s
      | None => s
      end
  | ToggleShowFullPath value => {|
      extractTimestamps := extractTimestamps s;
      timestampLength := timestampLength s;
      showFullPath := value;
      appendFileName := appendFileName s;
      enableLinkResolution := enableLinkResolution s;
      enablePartialMatching := enablePartialMatching s |}
  | ToggleAppendFileName value => {|
      extractTimestamps := extractTimestamps s;
      timestampLength := timestampLength s;
      showFullPath := showFullPath s;
      appendFileName := value;
      enableLinkResolution := enableLinkResolution s;
      enablePartialMatching := enablePartialMatching s |}
  | ToggleLinkResolution value => {|
      extractTimestamps := extractTimestamps s;
      timestampLength := timestampLength s;
      showFullPath := showFullPath s;
      appendFileName := appendFileName s;
      enableLinkResolution := value;
      enablePartialMatching := enablePartialMatching s |}
  | TogglePartialMatching value => {|
      extractTimestamps := extractTimestamps s;
      timestampLength := timestampLength s;
      showFullPath := showFullPath s;
      appendFileName := appendFileName s;
      enableLinkResolution := enableLinkResolution s;
      enablePartialMatching := value |}
  end.

(** The settings after a series of edits in the tab, first edit first. *)
Definition edits (es : list tab_event) (s : ZettelLinkSettings)
  : ZettelLinkSettings :=
  fold_left (fun s e => onChange e s) es s.

(** ** Installing and removing the override *)

(** The two functions [metadataCache.getFirstLinkpathDest] can be: the
    host's own, or a closure of [setupLinkResolution].  All such closures
    behave alike: they read [originalGetFirstLinkpathDest] and the settings
    when they are called. *)
Inductive method := HostMethod | OverrideMethod.

Record Hook := {
  cacheMethod : method;
  originalGetFirstLinkpathDest : option method
}.

(** A plugin object just constructed, over an untouched host. *)
Definition freshHook : Hook :=
  {| cacheMethod := HostMethod; originalGetFirstLinkpathDest := None |}.

(** The restore both [setupLinkResolution] and the registered clean-up start
    with or consist of; [clear] says whether the field is reset. *)
Definition restoreOriginal (clear : bool) (h : Hook) : Hook :=
  match originalGetFirstLinkpathDest h with
  | Some m =>
      {| cacheMethod := m;
         originalGetFirstLinkpathDest :=
           if clear then None else originalGetFirstLinkpathDest h |}
  | None => h
  end.

(** [setupLinkResolution], with the value of
    [settings.enableLinkResolution] at the call. *)
Definition setupLinkResolution (enabled : bool) (h : Hook) : Hook :=
  let h := restoreOriginal true h in
  if negb enabled then h
  else {| cacheMethod := OverrideMethod;
          originalGetFirstLinkpathDest := Some (cacheMethod h) |}.

(** [onunload]; the callbacks given to [register] do the same once more. *)
Definition onunload (h : Hook) : Hook := restoreOriginal false h.

(** [onload], then one [saveSettings] per entry of [saves]. *)
Definition hookAfter (onloadEnabled : bool) (saves : list bool) : Hook :=
  fold_left (fun h enabled => setupLinkResolution enabled h) saves
            (setupLinkResolution onloadEnabled freshHook).

(** ** Runs of the resolver *)

Section ResolverRuns.

Variable toLowerCase : jsstring -> jsstring.

(** A series of steps, with the events in the order they happen. *)
Inductive run : State -> list event -> State -> Prop :=
| run_nil st : run st [] st
| run_cons st e st' es st'' :
    step toLowerCase st e st' -> run st' es st'' -> run st (e :: es) st''.

(** The modal lists at least two files, each of which matches the link text
    the modal was opened for. *)
Definition chooser_lists_matches (m : LinkChooserModal) : Prop :=
  2 <= List.length (chooser_matches m) /\
  Forall (fun f => includes (toLowerCase (basename f))
                            (toLowerCase (chooser_linktext m)) = true)
         (chooser_matches m).

(** How a request without a default resolution is answered when no prompt
    is opened for it: with null, or with the only candidate that matches. *)
Definition answered_without_prompt (e : event) : Prop :=
  match e with
  | Request linktext allFiles None result =>
      result = None \/
      exists f, partialMatches toLowerCase linktext allFiles = [f] /\
                result = Some f
  | _ => True
  end.

End ResolverRuns.

(** The flag is set although no modal is on screen. *)
Definition flag_stuck (st : State) : Prop :=
  chooserOpen st = true /\ openChoosers st = [].

(** The files an event brings in from the host all satisfy [V]. *)
Definition event_input_in (V : TFile -> Prop) (e : event) : Prop :=
  match e with
  | Request _ allFiles file _ =>
      Forall V allFiles /\ (forall f, file = Some f -> V f)
  | _ => True
  end.

(** The file a request returns, if any, satisfies [V]. *)
Definition event_result_in (V : TFile -> Prop) (e : event) : Prop :=
  match e with
  | Request _ _ _ result => forall f, result = Some f -> V f
  | _ => True
  end.

(** The files the plugin holds on to, in the stored choice and in the
    modals on screen, all satisfy [V]. *)
Definition state_files_in (V : TFile -> Prop) (st : State) : Prop :=
  (forall f, lastChosenFile st = Some f -> V f) /\
  Forall (fun m => Forall V (chooser_matches m)) (openChoosers st).

(** The first prompt was closed with Escape. *)
Definition chooser_dismissed : State := {|
  settings := DEFAULT_SETTINGS;
  chooserOpen := true;
  lastChosenFile := None;
  openChoosers := []
|}.

(** ** The number shown in the length field *)

(** The decimal digits of [n] in front of [acc]; [fuel] bounds the number
    of digits. *)
Fixpoint decimalDigits (fuel n : nat) (acc : jsstring) : jsstring :=
  match fuel with
  | O => acc
  | S fuel' =>
      let acc' := N.of_nat (48 + n mod 10) :: acc in
      if n <? 10 then acc' else decimalDigits fuel' (n / 10) acc'
  end.

(** [String(n)] for a length [n] that is written out in plain digits
    ([rendersAsDigits], below 10^21): its decimal digits. *)
Definition decimalString (n : nat) : jsstring :=
  decimalDigits (S n) n [].

(** ** The range of the numbers *)

(** The number is below 10^21: [String] and template interpolation write it
    out in plain decimal digits, without an exponent. *)
Definition rendersAsDigits (n : nat) : Prop :=
  (Z.of_nat n < 10 ^ 21)%Z.

(** The number is below 2^53: it is a double exactly, and so is every
    integer between 0 and it. *)
Definition isSafeInteger (n : nat) : Prop :=
  (Z.of_nat n < 2 ^ 53)%Z.

(** * Properties *)

(** ** The spec's formatter scenarios *)

Example format_scenario_timestamp_and_title :
  format (str "202512270824 Christmas Traditions") (mkSettings true 12 true)
  = Normal (str "[[202512270824]] Christmas Traditions").
Proof. reflexivity. Qed.

Example format_scenario_no_timestamp :
  format (str "Project Ideas") (mkSettings true 12 true)
  = Normal (str "[[Project Ideas]]").
Proof. reflexivity. Qed.

Example format_scenario_bare_timestamp :
  format (str "202512270824") (mkSettings true 12 true)
  = Normal (str "[[202512270824]]").
Proof. reflexivity. Qed.

Example format_scenario_no_append :
  format (str "202512270824 Notes") (mkSettings true 12 false)
  = Normal (str "[[202512270824]]").
Proof. reflexivity. Qed.

Example format_empty_basename :
  format [] (mkSettings true 12 true) = Normal (str "[[]]").
Proof. reflexivity. Qed.

(** A line separator after the digits: the dot does not cross it, the
    pattern fails and the whole basename is linked. *)
Example format_line_separator :
  format (str "202512270824" ++ [8232%N] ++ str "x") (mkSettings true 12 true)
  = Normal (str "[[202512270824" ++ [8232%N] ++ str "x]]").
Proof. reflexivity. Qed.

(** ** The timestamp pattern *)

Lemma match_digits_sound n : forall s d r,
  match_digits n s = Some (d, r) ->
  s = d ++ r /\ List.length d = n /\ forallb isDecimalDigit d = true.
Proof.
  induction n as [|n IH]; intros s d r H; simpl in H.
  - inversion H; subst. auto.
  - destruct s as [|c s']; [discriminate|].
    destruct (isDecimalDigit c) eqn:Hc; [|discriminate].
    destruct (match_digits n s') as [[d' r']|] eqn:Hm; [|discriminate].
    inversion H; subst.
    destruct (IH _ _ _ Hm) as (-> & Hl & Hd).
    simpl. rewrite Hc, Hd, Hl. auto.
Qed.

Lemma match_digits_complete d : forall r,
  forallb isDecimalDigit d = true ->
  match_digits (List.length d) (d ++ r) = Some (d, r).
Proof.
  induction d as [|c d IH]; intros r H; simpl in *.
  - reflexivity.
  - apply andb_true_iff in H as [Hc Hd].
    rewrite Hc, (IH r Hd). reflexivity.
Qed.

Lemma match_rest_noLineTerminator s :
  match_rest s = if noLineTerminator s then Some s else None.
Proof.
  induction s as [|c s IH]; simpl.
  - reflexivity.
  - unfold noLineTerminator in *. simpl.
    destruct (isLineTerminator c); simpl; [reflexivity|].
    rewrite IH. destruct (forallb _ s); reflexivity.
Qed.

(** The pattern matches exactly the strings that split into a run of [n]
    digits and a remainder free of line terminators, and then captures
    these two parts. *)
Lemma timestampPattern_match_iff n fileName m :
  timestampPattern_match n fileName = Some m <->
  exists d r, m = [fileName; d; r] /\ fileName = d ++ r /\
              List.length d = n /\ forallb isDecimalDigit d = true /\
              noLineTerminator r = true.
Proof.
  unfold timestampPattern_match. split.
  - destruct (match_digits n fileName) as [[d s]|] eqn:Hd; [|discriminate].
    rewrite match_rest_noLineTerminator.
    destruct (noLineTerminator s) eqn:Hs; [|discriminate].
    intros H; inversion H; subst.
    destruct (match_digits_sound _ _ _ _ Hd) as (-> & Hl & Hdig).
    exists d, s. auto.
  - intros (d & r & -> & -> & <- & Hdig & Hr).
    rewrite (match_digits_complete _ r Hdig), match_rest_noLineTerminator, Hr.
    reflexivity.
Qed.

(** The first group against the leading digit run: it succeeds when the run
    has at least [n] digits, and then takes the first [n] of them whatever
    follows. *)
Lemma match_digits_leadingDigits n : forall s,
  match_digits n s =
    if n <=? leadingDigits s then Some (firstn n s, skipn n s) else None.
Proof.
  induction n as [|n IH]; intros s.
  - reflexivity.
  - destruct s as [|c s']; [reflexivity|].
    cbn [match_digits leadingDigits firstn skipn].
    destruct (isDecimalDigit c); [|reflexivity].
    rewrite IH. change (S n <=? S (leadingDigits s')) with (n <=? leadingDigits s').
    destruct (n <=? leadingDigits s'); reflexivity.
Qed.

Lemma leadingDigits_skipn n : forall s,
  n < leadingDigits s ->
  exists c r, skipn n s = c :: r /\ isDecimalDigit c = true.
Proof.
  induction n as [|n IH]; intros s H.
  - destruct s as [|c s']; simpl in H; [lia|].
    destruct (isDecimalDigit c) eqn:Hc; [|lia].
    exists c, s'. auto.
  - destruct s as [|c s']; simpl in H; [lia|].
    destruct (isDecimalDigit c); [|lia].
    simpl. apply IH. lia.
Qed.

(** ** Trimming *)

Lemma isDecimalDigit_not_trimmed c :
  isDecimalDigit c = true -> isTrimmed c = false.
Proof.
  unfold isDecimalDigit, isTrimmed, isWhiteSpace, isLineTerminator.
  intros H. apply andb_true_iff in H as [H1 H2].
  apply N.leb_le in H1, H2.
  repeat match goal with
  | |- context [N.eqb c ?k] =>
      let E := fresh in destruct (N.eqb_spec c k) as [E|E]; [lia|]
  end.
  destruct (N.leb_spec 8192 c); [lia|]. reflexivity.
Qed.

Lemma trimStart_app_kept s c :
  isTrimmed c = false -> exists s', trimStart (s ++ [c]) = s' ++ [c].
Proof.
  intros Hc. induction s as [|a s IH]; simpl.
  - rewrite Hc. exists []. reflexivity.
  - destruct (isTrimmed a).
    + exact IH.
    + exists (a :: s). reflexivity.
Qed.

(** A string that starts with a digit is not trimmed to nothing. *)
Lemma trim_digit_truthy c r :
  isDecimalDigit c = true -> truthy (trim (c :: r)) = true.
Proof.
  intros Hc. apply isDecimalDigit_not_trimmed in Hc.
  unfold trim, trimEnd. simpl trimStart at 2. rewrite Hc.
  simpl rev at 2.
  destruct (trimStart_app_kept (rev r) c Hc) as [s' ->].
  rewrite rev_app_distr. reflexivity.
Qed.

(** ** The formatter *)

(** C4: with [extractTimestamps] off, [format] links the whole basename,
    whatever the basename and the other settings are. *)
Theorem format_extract_disabled (b : jsstring) (c : ZettelLinkSettings) :
  extractTimestamps c = false ->
  format b c = Normal (str "[[" ++ b ++ str "]]").
Proof.
  intros H. unfold format. rewrite H. reflexivity.
Qed.

Lemma format_extract_disabled_witness :
  extractTimestamps (mkSettings false 12 true) = false /\
  format (str "202512270824 Notes") (mkSettings false 12 true)
  = Normal (str "[[" ++ str "202512270824 Notes" ++ str "]]").
Proof.
  split; [reflexivity | apply format_extract_disabled; reflexivity].
Defined.

(** C1: with [extractTimestamps] on, when the basename matches the timestamp
    pattern, the match is the basename split into its first
    [timestampLength] characters, all digits, and the remainder; [format]
    returns the bracketed timestamp, a space and the trimmed remainder when
    [appendFileName] is on and the trimmed remainder is not empty, and the
    bracketed timestamp alone otherwise. *)
Theorem format_timestamp_match (b : jsstring) (c : ZettelLinkSettings)
  (m : list jsstring) :
  extractTimestamps c = true ->
  timestampPattern_match (timestampLength c) b = Some m ->
  exists timestamp remainder,
    m = [b; timestamp; remainder] /\
    b = timestamp ++ remainder /\
    List.length timestamp = timestampLength c /\
    forallb isDecimalDigit timestamp = true /\
    format b c =
      Normal (if appendFileName c && truthy (trim remainder)
              then str "[[" ++ timestamp ++ str "]] " ++ trim remainder
              else str "[[" ++ timestamp ++ str "]]").
Proof.
  intros He Hm.
  destruct (proj1 (timestampPattern_match_iff _ _ _) Hm)
    as (d & r & -> & Hb & Hl & Hd & _).
  exists d, r. repeat split; try assumption.
  unfold format. rewrite He, Hm. cbn [nth_error call_trim bind interpolate].
  destruct (appendFileName c && truthy (trim r)); reflexivity.
Qed.

Lemma format_timestamp_match_witness :
  extractTimestamps (mkSettings true 12 true) = true /\
  timestampPattern_match (timestampLength (mkSettings true 12 true))
    (str "202512270824 Christmas Traditions")
  = Some [str "202512270824 Christmas Traditions"; str "202512270824";
          str " Christmas Traditions"] /\
  exists timestamp remainder,
    [str "202512270824 Christmas Traditions"; str "202512270824";
     str " Christmas Traditions"]
    = [str "202512270824 Christmas Traditions"; timestamp; remainder] /\
    str "202512270824 Christmas Traditions" = timestamp ++ remainder /\
    List.length timestamp = timestampLength (mkSettings true 12 true) /\
    forallb isDecimalDigit timestamp = true /\
    format (str "202512270824 Christmas Traditions") (mkSettings true 12 true)
    = Normal (if appendFileName (mkSettings true 12 true)
                 && truthy (trim remainder)
              then str "[[" ++ timestamp ++ str "]] " ++ trim remainder
              else str "[[" ++ timestamp ++ str "]]").
Proof.
  split; [reflexivity|]. split; [reflexivity|].
  apply format_timestamp_match; reflexivity.
Defined.

(** The converse reading: a basename that splits into [timestampLength]
    digits and a remainder free of line terminators is formatted from these
    two parts. *)
Lemma format_timestamp_split (t r : jsstring) (c : ZettelLinkSettings) :
  extractTimestamps c = true ->
  List.length t = timestampLength c ->
  forallb isDecimalDigit t = true ->
  noLineTerminator r = true ->
  format (t ++ r) c =
    Normal (if appendFileName c && truthy (trim r)
            then str "[[" ++ t ++ str "]] " ++ trim r
            else str "[[" ++ t ++ str "]]").
Proof.
  intros He Hl Hd Hr.
  assert (Hm : timestampPattern_match (timestampLength c) (t ++ r)
               = Some [t ++ r; t; r]).
  { apply timestampPattern_match_iff. exists t, r. auto. }
  unfold format. rewrite He, Hm. cbn [nth_error call_trim bind interpolate].
  destruct (appendFileName c && truthy (trim r)); reflexivity.
Qed.

(** With [extractTimestamps] on, a basename the pattern does not match is
    linked whole. *)
Lemma format_no_match (b : jsstring) (c : ZettelLinkSettings) :
  timestampPattern_match (timestampLength c) b = None ->
  format b c = Normal (str "[[" ++ b ++ str "]]").
Proof.
  intros Hm. unfold format. rewrite Hm.
  destruct (extractTimestamps c); reflexivity.
Qed.

(** A leading digit run shorter than [timestampLength] is no match. *)
Lemma format_shorter_digit_run (b : jsstring) (c : ZettelLinkSettings) :
  leadingDigits b < timestampLength c ->
  format b c = Normal (str "[[" ++ b ++ str "]]").
Proof.
  intros H. apply format_no_match. unfold timestampPattern_match.
  rewrite match_digits_leadingDigits.
  destruct (Nat.leb_spec (timestampLength c) (leadingDigits b)); [lia|].
  reflexivity.
Qed.

(** C3, as stated, fails: thirteen leading digits against a timestamp length
    of twelve still match; the thirteenth digit opens the remainder. *)
Lemma format_longer_digit_run_counterexample :
  extractTimestamps (mkSettings true 12 true) = true /\
  timestampLength (mkSettings true 12 true)
    < leadingDigits (str "2025122708245 Notes") /\
  timestampPattern_match (timestampLength (mkSettings true 12 true))
    (str "2025122708245 Notes") <> None /\
  format (str "2025122708245 Notes") (mkSettings true 12 true)
    = Normal (str "[[202512270824]] 5 Notes") /\
  format (str "2025122708245 Notes") (mkSettings true 12 true)
    <> Normal (str "[[" ++ str "2025122708245 Notes" ++ str "]]").
Proof.
  repeat split; try (vm_compute; lia); vm_compute; discriminate.
Qed.

(** C3, amended: with [extractTimestamps] on, a basename whose leading digit
    run is strictly longer than [timestampLength] does match, unless a line
    terminator follows its first [timestampLength] characters.  The timestamp
    is the first [timestampLength] digits; the remainder starts with the
    excess digits, so it is never trimmed to nothing: [format] returns the
    bracketed timestamp, followed by a space and the trimmed remainder when
    [appendFileName] is on.  Only with a line terminator in the remainder is
    the whole basename linked. *)
Theorem format_longer_digit_run (b : jsstring) (c : ZettelLinkSettings) :
  extractTimestamps c = true ->
  timestampLength c < leadingDigits b ->
  format b c =
    if noLineTerminator (skipn (timestampLength c) b) then
      Normal (if appendFileName c
              then str "[[" ++ firstn (timestampLength c) b ++ str "]] "
                     ++ trim (skipn (timestampLength c) b)
              else str "[[" ++ firstn (timestampLength c) b ++ str "]]")
    else Normal (str "[[" ++ b ++ str "]]").
Proof.
  intros He Hlt. unfold format, timestampPattern_match. rewrite He.
  rewrite match_digits_leadingDigits.
  destruct (Nat.leb_spec (timestampLength c) (leadingDigits b)); [|lia].
  rewrite match_rest_noLineTerminator.
  destruct (noLineTerminator _); [|reflexivity].
  cbn [nth_error call_trim bind interpolate].
  destruct (leadingDigits_skipn _ _ Hlt) as (d & r & -> & Hd).
  rewrite (trim_digit_truthy _ r Hd), andb_true_r.
  destruct (appendFileName c); reflexivity.
Qed.

Lemma format_longer_digit_run_witness :
  extractTimestamps (mkSettings true 12 true) = true /\
  timestampLength (mkSettings true 12 true)
    < leadingDigits (str "2025122708245 Notes") /\
  format (str "2025122708245 Notes") (mkSettings true 12 true) =
    if noLineTerminator
         (skipn (timestampLength (mkSettings true 12 true))
                (str "2025122708245 Notes"))
    then
      Normal (if appendFileName (mkSettings true 12 true)
              then str "[["
                     ++ firstn (timestampLength (mkSettings true 12 true))
                               (str "2025122708245 Notes")
                     ++ str "]] "
                     ++ trim (skipn (timestampLength (mkSettings true 12 true))
                                    (str "2025122708245 Notes"))
              else str "[["
                     ++ firstn (timestampLength (mkSettings true 12 true))
                               (str "2025122708245 Notes")
                     ++ str "]]")
    else Normal (str "[[" ++ str "2025122708245 Notes" ++ str "]]").
Proof.
  split; [reflexivity|]. split; [vm_compute; lia|].
  apply format_longer_digit_run; [reflexivity | vm_compute; lia].
Defined.

(** C9: [format] completes normally on every basename, the empty one
    included, and under every settings record; what it returns is a link: a
    target between double brackets, then possibly a space and a title. *)
Theorem format_total (b : jsstring) (c : ZettelLinkSettings) :
  exists target title,
    format b c = Normal (str "[[" ++ target ++ str "]]" ++ title).
Proof.
  unfold format.
  destruct (extractTimestamps c).
  - destruct (timestampPattern_match (timestampLength c) b) as [m|] eqn:Hm.
    + apply timestampPattern_match_iff in Hm
        as (d & r & -> & _ & _ & _ & _).
      cbn [nth_error call_trim bind interpolate].
      destruct (appendFileName c && truthy (trim r)).
      * exists d, (str " " ++ trim r). reflexivity.
      * exists d, []. reflexivity.
    + exists b, []. reflexivity.
  - exists b, []. reflexivity.
Qed.

(** ** The resolver *)

Lemma includes_empty (s : jsstring) : includes s [] = true.
Proof. destruct s; reflexivity. Qed.

Lemma filter_all {A : Type} (p : A -> bool) (l : list A) :
  (forall x, p x = true) -> filter p l = l.
Proof.
  intros H. induction l as [|a l IH]; simpl.
  - reflexivity.
  - rewrite H, IH. reflexivity.
Qed.

Section ResolverProperties.

Variable toLowerCase : jsstring -> jsstring.

(** The whole of the fallback, by the number of partial matches. *)
Lemma resolve_fallback st linktext allFiles :
  enablePartialMatching (settings st) = true ->
  resolve toLowerCase st linktext allFiles None =
    match partialMatches toLowerCase linktext allFiles with
    | [] => (None, st)
    | [f] => (Some f, st)
    | _ :: _ :: _ =>
        if chooserOpen st then (None, st)
        else (lastChosenFile st,
              openChooserModal linktext
                (partialMatches toLowerCase linktext allFiles) st)
    end.
Proof.
  intros Hp. unfold resolve. rewrite Hp. cbn [negb].
  destruct (partialMatches toLowerCase linktext allFiles) as [|f [|g l]].
  - reflexivity.
  - reflexivity.
  - cbn [List.length Nat.ltb Nat.leb andb Nat.eqb].
    destruct (chooserOpen st); reflexivity.
Qed.

(** C6: a non-null default resolution is returned as it is, for every
    reference and every candidate list, and the state is left untouched: no
    modal is opened, neither plugin field is written.  The candidates play
    no part in the result, and the same holds of the installed
    [getFirstLinkpathDest] under every settings record. *)
Theorem resolve_default_resolution st linktext allFiles f :
  resolve toLowerCase st linktext allFiles (Some f) = (Some f, st) /\
  (forall allFiles',
     resolve toLowerCase st linktext allFiles' (Some f)
     = resolve toLowerCase st linktext allFiles (Some f)) /\
  getFirstLinkpathDest toLowerCase st linktext allFiles (Some f)
  = (Some f, st).
Proof.
  split; [reflexivity|]. split; [reflexivity|].
  unfold getFirstLinkpathDest.
  destruct (enableLinkResolution (settings st)); reflexivity.
Qed.

(** C8: with partial matching disabled and no default resolution, [resolve]
    returns null as a value and leaves the state untouched, for every
    reference and every candidate list, empty or not. *)
Theorem resolve_partial_matching_disabled st linktext allFiles :
  enablePartialMatching (settings st) = false ->
  resolve toLowerCase st linktext allFiles None = (None, st).
Proof.
  intros Hp. unfold resolve. rewrite Hp. reflexivity.
Qed.


(** C10, amended: the empty reference passes every candidate through the
    filter (the lower-cased empty string is empty).  With partial matching
    enabled and no default resolution, null through "no match" is returned
    for the empty candidate list only; a single candidate is returned; two
    or more candidates are a multiple match: while no prompt is pending the
    prompt is opened over all of them and the stored choice is returned, and
    while one is pending no prompt is opened and null is returned. *)
Theorem resolve_empty_reference st allFiles :
  toLowerCase [] = [] ->
  enablePartialMatching (settings st) = true ->
  partialMatches toLowerCase [] allFiles = allFiles /\
  resolve toLowerCase st [] allFiles None =
    match allFiles with
    | [] => (None, st)
    | [f] => (Some f, st)
    | _ :: _ :: _ =>
        if chooserOpen st then (None, st)
        else (lastChosenFile st, openChooserModal [] allFiles st)
    end.
Proof.
  intros Hl Hp.
  assert (E : partialMatches toLowerCase [] allFiles = allFiles).
  { unfold partialMatches. rewrite Hl.
    apply filter_all. intros f. apply includes_empty. }
  split; [exact E|].
  rewrite (resolve_fallback st [] allFiles Hp), E. reflexivity.
Qed.

(** *** The single-prompt guard *)

Lemma single_chooser_close st i m :
  List.length (openChoosers st) <= 1 ->
  nth_error (openChoosers st) i = Some m ->
  firstn i (openChoosers st) ++ skipn (S i) (openChoosers st) = [].
Proof.
  intros Hlen Hn.
  destruct (openChoosers st) as [|m0 [|m1 l]]; simpl in Hlen.
  - destruct i; discriminate.
  - destruct i as [|i]; [reflexivity|]. destruct i; discriminate.
  - lia.
Qed.

(** Closing the only modal leaves none, whether or not the callback ran. *)
Ltac close_chooser_case Hinv Hn :=
  let Hlen := fresh "Hlen" in
  destruct Hinv as [Hlen _];
  unfold single_chooser, closeChooser, chooserCallback;
  cbn [openChoosers chooserOpen];
  rewrite (single_chooser_close _ _ _ Hlen Hn);
  split; [simpl; lia | auto].

Lemma resolve_single_chooser st linktext allFiles file :
  single_chooser st ->
  single_chooser (snd (resolve toLowerCase st linktext allFiles file)).
Proof.
  intros Hinv. unfold resolve.
  destruct file as [f|]; [exact Hinv|].
  destruct (negb (enablePartialMatching (settings st))); [exact Hinv|].
  cbv zeta.
  destruct (1 <? List.length (partialMatches toLowerCase linktext allFiles));
    cbn [andb].
  - destruct (chooserOpen st) eqn:Hc; cbn [negb snd].
    + destruct (_ =? 1); exact Hinv.
    + destruct Hinv as [_ Hnone]. unfold single_chooser. simpl.
      rewrite (Hnone Hc). split; [simpl; lia | discriminate].
  - destruct (_ =? 1); exact Hinv.
Qed.

Lemma step_single_chooser st e st' :
  single_chooser st -> step toLowerCase st e st' -> single_chooser st'.
Proof.
  intros Hinv Hstep.
  destruct Hstep as [st linktext allFiles file | st i m file Hn _
                    | st i m Hn | st i m Hn | st s].
  - unfold getFirstLinkpathDest.
    destruct (enableLinkResolution (settings st)).
    + apply resolve_single_chooser. exact Hinv.
    + exact Hinv.
  - close_chooser_case Hinv Hn.
  - close_chooser_case Hinv Hn.
  - close_chooser_case Hinv Hn.
  - exact Hinv.
Qed.

Lemma reachable_single_chooser st :
  reachable toLowerCase st -> single_chooser st.
Proof.
  induction 1 as [s | st e st' _ IH Hstep].
  - split; [simpl; lia | reflexivity].
  - exact (step_single_chooser st e st' IH Hstep).
Qed.

(** A request made while the flag is set leaves the state as it is. *)
Lemma resolve_guarded_state st linktext allFiles file :
  chooserOpen st = true ->
  snd (resolve toLowerCase st linktext allFiles file) = st.
Proof.
  intros Hc. unfold resolve. rewrite Hc, andb_false_r.
  destruct file; [reflexivity|].
  destruct (negb _); [reflexivity|].
  cbv zeta. destruct (_ =? 1); reflexivity.
Qed.

(** C7, amended: in every reachable state, whether the flag is set or not,
    at most one chooser modal is on screen.  A request made while the flag
    is set opens no modal and writes
    no field, and its result does not read the stored choice: it is the
    default resolution when there is one, and otherwise null, unless partial
    matching is enabled and exactly one candidate matches, which is then
    returned. *)
Theorem guarded_request_opens_no_prompt st linktext allFiles file :
  reachable toLowerCase st ->
  List.length (openChoosers st) <= 1 /\
  (chooserOpen st = true ->
   snd (resolve toLowerCase st linktext allFiles file) = st /\
   fst (resolve toLowerCase st linktext allFiles file) =
     match file with
     | Some f => Some f
     | None =>
         if enablePartialMatching (settings st) then
           match partialMatches toLowerCase linktext allFiles with
           | [f] => Some f
           | _ => None
           end
         else None
     end).
Proof.
  intros Hr. split; [exact (proj1 (reachable_single_chooser st Hr))|].
  intros Hc. split.
  - exact (resolve_guarded_state st linktext allFiles file Hc).
  - destruct file as [f|]; [reflexivity|].
    destruct (enablePartialMatching (settings st)) eqn:Hp.
    + rewrite (resolve_fallback st linktext allFiles Hp), Hc.
      destruct (partialMatches toLowerCase linktext allFiles) as [|f [|g l]];
        reflexivity.
    + unfold resolve. rewrite Hp. reflexivity.
Qed.

End ResolverProperties.

(** ** Concrete runs of the resolver *)

Example partialMatches_case_insensitive :
  partialMatches asciiToLowerCase (str "PLAN") [fileA; fileB; fileC] = [fileB].
Proof. reflexivity. Qed.

Example resolve_scenario_one_match :
  resolve asciiToLowerCase (initial DEFAULT_SETTINGS) (str "PLAN")
    [fileA; fileB; fileC] None
  = (Some fileB, initial DEFAULT_SETTINGS).
Proof. reflexivity. Qed.

Example resolve_scenario_no_match :
  resolve asciiToLowerCase (initial DEFAULT_SETTINGS) (str "2026")
    [fileA; fileB; fileC] None
  = (None, initial DEFAULT_SETTINGS).
Proof. reflexivity. Qed.

Lemma resolve_partial_matching_disabled_witness :
  enablePartialMatching
    (settings (initial {| extractTimestamps := true; timestampLength := 12;
                          showFullPath := true; appendFileName := true;
                          enableLinkResolution := true;
                          enablePartialMatching := false |})) = false /\
  resolve asciiToLowerCase
    (initial {| extractTimestamps := true; timestampLength := 12;
                showFullPath := true; appendFileName := true;
                enableLinkResolution := true;
                enablePartialMatching := false |})
    (str "2025") [fileA; fileB] None
  = (None,
     initial {| extractTimestamps := true; timestampLength := 12;
                showFullPath := true; appendFileName := true;
                enableLinkResolution := true;
                enablePartialMatching := false |}).
Proof.
  split; [reflexivity|].
  apply resolve_partial_matching_disabled. reflexivity.
Defined.


Lemma resolve_empty_reference_witness :
  asciiToLowerCase [] = [] /\
  enablePartialMatching (settings (initial DEFAULT_SETTINGS)) = true /\
  partialMatches asciiToLowerCase [] [fileA; fileB] = [fileA; fileB] /\
  resolve asciiToLowerCase (initial DEFAULT_SETTINGS) [] [fileA; fileB] None
  = (None, openChooserModal [] [fileA; fileB] (initial DEFAULT_SETTINGS)).
Proof.
  split; [reflexivity|]. split; [reflexivity|].
  apply (resolve_empty_reference asciiToLowerCase (initial DEFAULT_SETTINGS)
           [fileA; fileB]); reflexivity.
Defined.

(** The three steps that lead to [chooser_reopened]: a request with two
    matches opens the prompt, the user picks [fileB], a second request with
    two matches opens the prompt again. *)
Lemma reachable_chooser_pending :
  reachable asciiToLowerCase chooser_pending.
Proof.
  apply (reachable_step asciiToLowerCase (initial DEFAULT_SETTINGS)
           (Request (str "2025") [fileA; fileB] None None)).
  - apply reachable_initial.
  - exact (step_request asciiToLowerCase (initial DEFAULT_SETTINGS)
             (str "2025") [fileA; fileB] None).
Qed.

Lemma reachable_chooser_answered :
  reachable asciiToLowerCase chooser_answered.
Proof.
  apply (reachable_step asciiToLowerCase chooser_pending (ClickItem 0 fileB)).
  - exact reachable_chooser_pending.
  - apply (step_click_item asciiToLowerCase chooser_pending 0 chooser2025 fileB).
    + reflexivity.
    + simpl. auto.
Qed.

Lemma reachable_chooser_reopened :
  reachable asciiToLowerCase chooser_reopened.
Proof.
  apply (reachable_step asciiToLowerCase chooser_answered
           (Request (str "2025") [fileA; fileB] None (Some fileB))).
  - exact reachable_chooser_answered.
  - exact (step_request asciiToLowerCase chooser_answered
             (str "2025") [fileA; fileB] None).
Qed.

Lemma guarded_request_opens_no_prompt_witness :
  reachable asciiToLowerCase chooser_reopened /\
  chooserOpen chooser_reopened = true /\
  List.length (openChoosers chooser_reopened) <= 1 /\
  snd (resolve asciiToLowerCase chooser_reopened (str "2025")
         [fileA; fileB] None) = chooser_reopened /\
  fst (resolve asciiToLowerCase chooser_reopened (str "2025")
         [fileA; fileB] None) = None.
Proof.
  split; [exact reachable_chooser_reopened|]. split; [reflexivity|].
  destruct (guarded_request_opens_no_prompt asciiToLowerCase chooser_reopened
              (str "2025") [fileA; fileB] None reachable_chooser_reopened)
    as [Hlen Hguard].
  split; [exact Hlen | exact (Hguard eq_refl)].
Defined.

(** C7, as stated, fails: in the reachable state [chooser_reopened] the flag
    is set and the stored choice is [fileB], yet a request with two matches
    returns null. *)
Lemma guarded_request_counterexample :
  reachable asciiToLowerCase chooser_reopened /\
  chooserOpen chooser_reopened = true /\
  lastChosenFile chooser_reopened = Some fileB /\
  resolve asciiToLowerCase chooser_reopened (str "2025") [fileA; fileB] None
  = (None, chooser_reopened) /\
  ~ guarded_request_reuses_outcome asciiToLowerCase.
Proof.
  split; [exact reachable_chooser_reopened|].
  split; [reflexivity|]. split; [reflexivity|]. split; [reflexivity|].
  intros H.
  destruct (H chooser_reopened reachable_chooser_reopened) as [_ Hreuse].
  destruct (Hreuse eq_refl (str "2025") [fileA; fileB] None) as [_ Hres].
  discriminate Hres.
Qed.

(** C10, as stated, fails: in the reachable state [chooser_pending] the
    empty reference matches both candidates, yet no prompt is opened for
    them and the request returns null. *)
Lemma resolve_empty_reference_counterexample :
  reachable asciiToLowerCase chooser_pending /\
  enablePartialMatching (settings chooser_pending) = true /\
  partialMatches asciiToLowerCase [] [fileA; fileB] = [fileA; fileB] /\
  resolve asciiToLowerCase chooser_pending [] [fileA; fileB] None
  = (None, chooser_pending) /\
  openChoosers
    (snd (resolve asciiToLowerCase chooser_pending [] [fileA; fileB] None))
  = openChoosers chooser_pending.
Proof.
  split; [exact reachable_chooser_pending|].
  repeat split.
Qed.

(** C2 on the spec's scenario: the call that opens the prompt has returned,
    with the stored choice of that moment (null in a fresh plugin), before
    the user picks; the pick of [fileB] only reaches [lastChosenFile]. *)
Theorem resolve_prompt_returns_before_choice :
  resolve asciiToLowerCase (initial DEFAULT_SETTINGS) (str "2025")
    [fileA; fileB] None
  = (None, chooser_pending) /\
  step asciiToLowerCase chooser_pending (ClickItem 0 fileB) chooser_answered /\
  lastChosenFile chooser_answered = Some fileB /\
  fst (resolve asciiToLowerCase (initial DEFAULT_SETTINGS) (str "2025")
         [fileA; fileB] None) <> Some fileB.
Proof.
  split; [reflexivity|]. split; [|split; [reflexivity | discriminate]].
  apply (step_click_item asciiToLowerCase chooser_pending 0 chooser2025 fileB).
  - reflexivity.
  - simpl. auto.
Qed.

(** The stored choice then answers the next multiple match, whatever its
    reference: here a link to "e" resolves to [fileB], whose name has no
    "e", while the prompt offers [fileA] and [fileC]. *)
Example resolve_stale_choice :
  resolve asciiToLowerCase chooser_answered (str "e") [fileA; fileB; fileC]
    None
  = (Some fileB, openChooserModal (str "e") [fileA; fileC] chooser_answered).
Proof. reflexivity. Qed.

(** * Further properties *)

(** ** The pattern and the formatter *)

Lemma timestampPattern_match_leading (n : nat) (b : jsstring) :
  timestampPattern_match n b =
    if (n <=? leadingDigits b) && noLineTerminator (skipn n b)
    then Some [b; firstn n b; skipn n b]
    else None.
Proof.
  unfold timestampPattern_match.
  rewrite match_digits_leadingDigits.
  destruct (n <=? leadingDigits b); [|reflexivity].
  rewrite match_rest_noLineTerminator.
  destruct (noLineTerminator (skipn n b)); [|reflexivity].
  cbn [andb]. rewrite firstn_skipn. reflexivity.
Qed.

(** X1: For a length [n] that is written out in plain digits, the pattern
    is decided by the leading digit run and the line terminators: it fails
    exactly when the basename starts with fewer than [n] digits or a line
    terminator follows its first [n] characters. *)
Theorem timestampPattern_match_decided (n : nat) (b : jsstring) :
  rendersAsDigits n ->
  (timestampPattern_match n b = None <->
   leadingDigits b < n \/ noLineTerminator (skipn n b) = false).
Proof.
  intros _. rewrite timestampPattern_match_leading.
  destruct (Nat.leb_spec n (leadingDigits b)) as [Hle|Hlt];
    destruct (noLineTerminator (skipn n b)); cbn [andb]; split;
    try discriminate; try reflexivity; auto.
  - intros [H|H]; [lia | discriminate].
Qed.

Lemma timestampPattern_match_decided_witness :
  rendersAsDigits 12 /\
  (timestampPattern_match 12 (str "20251227 Notes") = None <->
   leadingDigits (str "20251227 Notes") < 12 \/
   noLineTerminator (skipn 12 (str "20251227 Notes")) = false).
Proof.
  split; [reflexivity|].
  apply (timestampPattern_match_decided 12 (str "20251227 Notes")).
  reflexivity.
Defined.

Lemma leadingDigits_length (s : jsstring) : leadingDigits s <= List.length s.
Proof.
  induction s as [|c s IH]; simpl; [lia|].
  destruct (isDecimalDigit c); lia.
Qed.

(** X2: Whatever the basename and the settings, with a timestamp length that
    is written out in plain digits, the text is one of two things:
    the whole basename between brackets, or the first [timestampLength]
    characters of the basename, all digits, between brackets, followed (when
    [appendFileName] is on and something is left after trimming) by a space
    and the trimmed rest of the basename.  Nothing else of the basename is
    dropped or changed. *)
Theorem format_shapes (b : jsstring) (c : ZettelLinkSettings) :
  rendersAsDigits (timestampLength c) ->
  format b c = Normal (str "[[" ++ b ++ str "]]") \/
  (List.length (firstn (timestampLength c) b) = timestampLength c /\
   forallb isDecimalDigit (firstn (timestampLength c) b) = true /\
   format b c =
     Normal (str "[[" ++ firstn (timestampLength c) b ++ str "]]"
               ++ (if appendFileName c
                      && truthy (trim (skipn (timestampLength c) b))
                   then str " " ++ trim (skipn (timestampLength c) b)
                   else []))).
Proof.
  intros _.
  unfold format. destruct (extractTimestamps c); [|left; reflexivity].
  rewrite timestampPattern_match_leading.
  destruct (timestampLength c <=? leadingDigits b) eqn:Hle;
    [|left; reflexivity].
  destruct (noLineTerminator (skipn (timestampLength c) b));
    [|left; reflexivity].
  right. cbn [andb nth_error call_trim bind interpolate].
  pose proof (match_digits_leadingDigits (timestampLength c) b) as Hm.
  rewrite Hle in Hm.
  destruct (match_digits_sound _ _ _ _ Hm) as (_ & Hl & Hd).
  split; [exact Hl|]. split; [exact Hd|].
  destruct (appendFileName c && truthy (trim (skipn (timestampLength c) b))).
  - reflexivity.
  - rewrite app_nil_r. reflexivity.
Qed.

Lemma format_shapes_witness :
  rendersAsDigits (timestampLength (mkSettings true 12 true)) /\
  (format (str "202512270824 Notes") (mkSettings true 12 true)
   = Normal (str "[[" ++ str "202512270824 Notes" ++ str "]]") \/
   (List.length (firstn (timestampLength (mkSettings true 12 true))
                        (str "202512270824 Notes"))
    = timestampLength (mkSettings true 12 true) /\
    forallb isDecimalDigit
      (firstn (timestampLength (mkSettings true 12 true))
              (str "202512270824 Notes")) = true /\
    format (str "202512270824 Notes") (mkSettings true 12 true) =
      Normal (str "[["
                ++ firstn (timestampLength (mkSettings true 12 true))
                          (str "202512270824 Notes")
                ++ str "]]"
                ++ (if appendFileName (mkSettings true 12 true)
                       && truthy
                            (trim (skipn
                                     (timestampLength
                                        (mkSettings true 12 true))
                                     (str "202512270824 Notes")))
                    then str " "
                           ++ trim (skipn
                                      (timestampLength
                                         (mkSettings true 12 true))
                                      (str "202512270824 Notes"))
                    else [])))).
Proof.
  split; [reflexivity|].
  apply (format_shapes (str "202512270824 Notes") (mkSettings true 12 true)).
  reflexivity.
Defined.

(** X3: A basename that starts with fewer digits than [timestampLength], a
    length written out in plain digits, does not match the pattern and is
    linked whole, whether timestamps are extracted or not and whatever
    follows the digits. *)
Theorem format_digit_run_too_short (b : jsstring) (c : ZettelLinkSettings) :
  rendersAsDigits (timestampLength c) ->
  leadingDigits b < timestampLength c ->
  timestampPattern_match (timestampLength c) b = None /\
  format b c = Normal (str "[[" ++ b ++ str "]]").
Proof.
  intros _ H. split; [|exact (format_shorter_digit_run b c H)].
  rewrite timestampPattern_match_leading.
  destruct (Nat.leb_spec (timestampLength c) (leadingDigits b)); [lia|].
  reflexivity.
Qed.

Lemma format_digit_run_too_short_witness :
  rendersAsDigits (timestampLength (mkSettings true 12 true)) /\
  leadingDigits (str "20251227 Notes")
    < timestampLength (mkSettings true 12 true) /\
  timestampPattern_match (timestampLength (mkSettings true 12 true))
    (str "20251227 Notes") = None /\
  format (str "20251227 Notes") (mkSettings true 12 true)
  = Normal (str "[[" ++ str "20251227 Notes" ++ str "]]").
Proof.
  split; [reflexivity|]. split; [vm_compute; lia|].
  apply format_digit_run_too_short; [reflexivity | vm_compute; lia].
Defined.

(** X4: A timestamp length of zero, which the settings tab refuses but a data
    file can hold, makes every basename free of line terminators match with
    an empty timestamp: the link has no target and the whole name follows
    it as the title. *)
Theorem format_zero_length (b : jsstring) (c : ZettelLinkSettings) :
  extractTimestamps c = true ->
  timestampLength c = 0 ->
  noLineTerminator b = true ->
  format b c =
    Normal (if appendFileName c && truthy (trim b)
            then str "[[]] " ++ trim b
            else str "[[]]").
Proof.
  intros He Hz Hn.
  exact (format_timestamp_split [] b c He (eq_sym Hz) eq_refl Hn).
Qed.

Lemma format_zero_length_witness :
  extractTimestamps (mkSettings true 0 true) = true /\
  timestampLength (mkSettings true 0 true) = 0 /\
  noLineTerminator (str "Project Ideas") = true /\
  format (str "Project Ideas") (mkSettings true 0 true)
  = Normal (str "[[]] Project Ideas").
Proof.
  split; [reflexivity|]. split; [reflexivity|]. split; [reflexivity|].
  apply (format_zero_length (str "Project Ideas") (mkSettings true 0 true));
    reflexivity.
Defined.

(** X6: The formatter with the length fixed at twelve is the configurable one
    under the default settings: the defaults change nothing for a user of
    the earlier versions. *)
Theorem onChooseItem_fixed_default (b : jsstring) :
  onChooseItem_fixed b = format b DEFAULT_SETTINGS.
Proof.
  unfold onChooseItem_fixed, format.
  cbn [extractTimestamps timestampLength appendFileName DEFAULT_SETTINGS].
  rewrite timestampPattern_match_leading.
  destruct ((12 <=? leadingDigits b) && noLineTerminator (skipn 12 b));
    [|reflexivity].
  cbn [andb nth_error call_trim bind interpolate].
  destruct (truthy (trim (skipn 12 b))).
  - reflexivity.
  - rewrite app_nil_r. reflexivity.
Qed.

Lemma selectSuggestion_text_leading (b : jsstring) :
  selectSuggestion_text b =
    if 12 <=? leadingDigits b
    then Normal (str "[[" ++ firstn 12 b ++ str "]] " ++ trim (skipn 12 b))
    else Normal (str "[[" ++ b ++ str "]]").
Proof.
  unfold selectSuggestion_text, suggestPattern_match.
  rewrite match_digits_leadingDigits.
  destruct (12 <=? leadingDigits b); reflexivity.
Qed.

(** X7: The editor-suggest formatter of the README: a name that starts with at
    least twelve digits is linked by its first twelve, line terminators or
    not, and the link is always followed by a space and the trimmed rest,
    so that a name that is nothing but a timestamp gets a trailing space. *)
Theorem selectSuggestion_text_timestamp (b : jsstring) :
  12 <= leadingDigits b ->
  selectSuggestion_text b
  = Normal (str "[[" ++ firstn 12 b ++ str "]] " ++ trim (skipn 12 b)) /\
  (trim (skipn 12 b) = [] ->
   selectSuggestion_text b = Normal (str "[[" ++ firstn 12 b ++ str "]] ")).
Proof.
  intros Hle. rewrite selectSuggestion_text_leading.
  destruct (Nat.leb_spec 12 (leadingDigits b)); [|lia].
  split; [reflexivity|]. intros ->. reflexivity.
Qed.

Lemma selectSuggestion_text_timestamp_witness :
  12 <= leadingDigits (str "202512270824") /\
  selectSuggestion_text (str "202512270824")
  = Normal (str "[[" ++ firstn 12 (str "202512270824") ++ str "]] "
              ++ trim (skipn 12 (str "202512270824"))) /\
  (trim (skipn 12 (str "202512270824")) = [] ->
   selectSuggestion_text (str "202512270824")
   = Normal (str "[[" ++ firstn 12 (str "202512270824") ++ str "]] ")).
Proof.
  split; [vm_compute; lia|].
  apply selectSuggestion_text_timestamp. vm_compute. lia.
Defined.

(** Where the two formatters agree: on a name with a title after its twelve
    digits and no line terminator, under the default settings. *)
Theorem selectSuggestion_text_agrees (b : jsstring) :
  12 <= leadingDigits b ->
  noLineTerminator (skipn 12 b) = true ->
  truthy (trim (skipn 12 b)) = true ->
  selectSuggestion_text b = format b DEFAULT_SETTINGS.
Proof.
  intros Hle Hn Ht.
  rewrite selectSuggestion_text_leading.
  unfold format.
  cbn [extractTimestamps timestampLength appendFileName DEFAULT_SETTINGS].
  rewrite timestampPattern_match_leading, Hn.
  destruct (Nat.leb_spec 12 (leadingDigits b)); [|lia].
  cbn [andb nth_error call_trim bind interpolate]. rewrite Ht.
  reflexivity.
Qed.

Lemma selectSuggestion_text_agrees_witness :
  12 <= leadingDigits (str "202512270824 Christmas Traditions") /\
  noLineTerminator (skipn 12 (str "202512270824 Christmas Traditions")) = true
  /\ truthy (trim (skipn 12 (str "202512270824 Christmas Traditions"))) = true
  /\ selectSuggestion_text (str "202512270824 Christmas Traditions")
     = format (str "202512270824 Christmas Traditions") DEFAULT_SETTINGS.
Proof.
  split; [vm_compute; lia|]. split; [reflexivity|]. split; [reflexivity|].
  apply selectSuggestion_text_agrees;
    [vm_compute; lia | reflexivity | reflexivity].
Defined.

Example selectSuggestion_text_bare_timestamp :
  selectSuggestion_text (str "202512270824")
  = Normal (str "[[202512270824]] ").
Proof. reflexivity. Qed.

(** ** Strings *)

Lemma startsWith_true (s t : jsstring) :
  startsWith s t = true <-> exists r, s = t ++ r.
Proof.
  revert s. induction t as [|d t IH]; intros [|c s]; simpl.
  - split; [intros _; exists []; reflexivity | reflexivity].
  - split; [intros _; exists (c :: s); reflexivity | reflexivity].
  - split; [discriminate | intros [r H]; discriminate].
  - rewrite andb_true_iff, N.eqb_eq, IH. split.
    + intros [-> [r ->]]. exists r. reflexivity.
    + intros [r H]. inversion H; subst. split; [reflexivity|].
      exists r. reflexivity.
Qed.

Lemma includes_true (s t : jsstring) :
  includes s t = true <-> exists a b, s = a ++ t ++ b.
Proof.
  induction s as [|c s IH]; cbn [includes].
  - rewrite orb_false_r, startsWith_true. split.
    + intros [r H]. exists [], r. exact H.
    + intros (a & b & H). symmetry in H.
      apply app_eq_nil in H as [-> H]. apply app_eq_nil in H as [-> ->].
      exists []. reflexivity.
  - rewrite orb_true_iff, startsWith_true, IH. split.
    + intros [[r H] | (a & b & H)].
      * exists [], r. exact H.
      * exists (c :: a), b. rewrite H. reflexivity.
    + intros (a & b & H). destruct a as [|c' a].
      * left. exists b. exact H.
      * right. inversion H; subst. exists a, b. reflexivity.
Qed.

Lemma includes_refl (s : jsstring) : includes s s = true.
Proof. apply includes_true. exists [], []. rewrite app_nil_r. reflexivity. Qed.

Lemma includes_trans (s t u : jsstring) :
  includes s t = true -> includes t u = true -> includes s u = true.
Proof.
  rewrite !includes_true. intros (a & b & ->) (a' & b' & ->).
  exists (a ++ a'), (b' ++ b). rewrite <- !app_assoc. reflexivity.
Qed.

Lemma jsstring_eqb_eq (s t : jsstring) : jsstring_eqb s t = true <-> s = t.
Proof.
  revert t. induction s as [|c s IH]; intros [|d t]; simpl;
    try (split; [discriminate | intros H; discriminate]);
    try (split; reflexivity).
  rewrite andb_true_iff, N.eqb_eq, IH. split.
  - intros [-> ->]. reflexivity.
  - intros H. inversion H. auto.
Qed.

Lemma substring_prefix (s t : jsstring) :
  substring (s ++ t) 0 (List.length s) = s.
Proof.
  unfold substring. rewrite length_app.
  replace (Nat.min 0 _) with 0 by lia.
  replace (Nat.min (List.length s) _) with (List.length s) by lia.
  replace (Nat.max 0 _ - Nat.min 0 _) with (List.length s) by lia.
  replace (Nat.min 0 (List.length s)) with 0 by lia. simpl.
  rewrite firstn_app, firstn_all, Nat.sub_diag. simpl. apply app_nil_r.
Qed.

Lemma substring_length (s : jsstring) (a b : nat) :
  a <= b ->
  List.length (substring s a b)
  = Nat.min b (List.length s) - Nat.min a (List.length s).
Proof.
  intros Hab. unfold substring.
  rewrite length_firstn, length_skipn. lia.
Qed.

Lemma substring_middle (before mid after : jsstring) :
  substring (before ++ mid ++ after) (List.length before)
            (List.length before + List.length mid) = mid.
Proof.
  unfold substring. rewrite !length_app.
  replace (Nat.min (List.length before) _) with (List.length before) by lia.
  replace (Nat.min (List.length before + List.length mid) _)
    with (List.length before + List.length mid) by lia.
  replace (Nat.max _ _ - Nat.min _ _) with (List.length mid) by lia.
  replace (Nat.min (List.length before) _) with (List.length before) by lia.
  rewrite skipn_app, skipn_all, Nat.sub_diag. simpl.
  rewrite firstn_app, firstn_all, Nat.sub_diag. simpl. apply app_nil_r.
Qed.

(** ** The auto-pair clean-up *)

Lemma firstn_S_nth_error {A : Type} (l : list A) : forall i x,
  nth_error l i = Some x -> firstn (S i) l = firstn i l ++ [x].
Proof.
  induction l as [|a l IH]; intros [|i] x H; simpl in *; try discriminate.
  - inversion H. reflexivity.
  - rewrite (IH i x H). reflexivity.
Qed.

Lemma closingLoop_closed (t : jsstring) : forall n acc,
  n <= List.length t ->
  closingLoop t n acc = acc ++ map autoPair (rev (firstn n t)).
Proof.
  induction n as [|i IH]; intros acc Hn.
  - simpl. rewrite app_nil_r. reflexivity.
  - cbn [closingLoop].
    destruct (nth_error t i) as [c|] eqn:Hc.
    + rewrite IH by lia. rewrite (firstn_S_nth_error t i c Hc).
      rewrite rev_app_distr. simpl. rewrite <- app_assoc. reflexivity.
    + apply nth_error_None in Hc. lia.
Qed.

Lemma expectedClosing_map (t : jsstring) :
  expectedClosing t = map autoPair (rev t).
Proof.
  unfold expectedClosing. rewrite closingLoop_closed by lia.
  rewrite firstn_all. reflexivity.
Qed.

(** X8: The closing sequence the loop builds is the trigger sequence read
    backwards with every opener replaced by its closer; it is as long as the
    trigger sequence. *)
Theorem expectedClosing_closed (t : jsstring) :
  expectedClosing t = map autoPair (rev t) /\
  List.length (expectedClosing t) = List.length t.
Proof.
  pose proof (expectedClosing_map t) as E.
  split; [exact E|]. rewrite E, length_map, length_rev. reflexivity.
Qed.

Lemma charsToRemove_bounds (expected afterCursor : jsstring) :
  charsToRemove expected afterCursor <= List.length expected /\
  charsToRemove expected afterCursor <= List.length afterCursor /\
  firstn (charsToRemove expected afterCursor) afterCursor
  = firstn (charsToRemove expected afterCursor) expected.
Proof.
  unfold charsToRemove.
  destruct (truthy expected && startsWith afterCursor expected) eqn:Hfull.
  - apply andb_true_iff in Hfull as [_ Hs].
    apply startsWith_true in Hs as [r ->].
    rewrite length_app, firstn_app, !firstn_all, Nat.sub_diag. simpl.
    rewrite app_nil_r. repeat split; (lia || reflexivity).
  - destruct expected as [|c e]; cbn [List.length Nat.ltb Nat.leb].
    + repeat split; (lia || reflexivity).
    + destruct (startsWith afterCursor [c]) eqn:Hs.
      * apply startsWith_true in Hs as [r ->]. simpl.
        repeat split; (lia || reflexivity).
      * simpl. repeat split; (lia || reflexivity).
Qed.

Lemma charsToRemove_no_closer (expected afterCursor : jsstring) :
  startsWith afterCursor (firstn 1 expected) = false ->
  charsToRemove expected afterCursor = 0.
Proof.
  intros Hs.
  destruct (charsToRemove_bounds expected afterCursor) as (H1 & H2 & H3).
  destruct (charsToRemove expected afterCursor) as [|k] eqn:Hk;
    [reflexivity|].
  exfalso.
  destruct expected as [|c e]; [simpl in H1; lia|].
  destruct afterCursor as [|a r]; [simpl in H2; lia|].
  simpl in H3. inversion H3; subst a.
  simpl in Hs. rewrite N.eqb_refl in Hs. destruct r; discriminate.
Qed.

(** X9: What the clean-up deletes is there and is closers: the count is at most
    the length of the closing sequence, and the characters it covers after
    the cursor are the first characters of that sequence.  Nothing is
    deleted when the text after the cursor does not start with the first
    closer. *)
Theorem charsToRemove_prefix (expected afterCursor : jsstring) :
  charsToRemove expected afterCursor <= List.length expected /\
  charsToRemove expected afterCursor <= List.length afterCursor /\
  firstn (charsToRemove expected afterCursor) afterCursor
  = firstn (charsToRemove expected afterCursor) expected /\
  (startsWith afterCursor (firstn 1 expected) = false ->
   charsToRemove expected afterCursor = 0).
Proof.
  destruct (charsToRemove_bounds expected afterCursor) as (H1 & H2 & H3).
  repeat split; try assumption.
  apply charsToRemove_no_closer.
Qed.

Lemma format_completes (b : jsstring) (c : ZettelLinkSettings) :
  exists link, format b c = Normal link.
Proof.
  unfold format. destruct (extractTimestamps c); [|eexists; reflexivity].
  rewrite timestampPattern_match_leading.
  destruct (_ && _); [|eexists; reflexivity].
  cbn [nth_error call_trim bind interpolate].
  destruct (_ && _); eexists; reflexivity.
Qed.

Lemma onChooseItem_trigger_spec (settings : ZettelLinkSettings)
  (triggerSequence fileName before after : jsstring) :
  exists link k,
    format fileName settings = Normal link /\
    onChooseItem_trigger settings triggerSequence fileName
      {| line := before ++ after; ch := List.length before |}
    = Normal (before ++ link ++ skipn k after) /\
    k <= List.length triggerSequence /\
    firstn k after = firstn k (map autoPair (rev triggerSequence)).
Proof.
  destruct (format_completes fileName settings) as (link & Hf).
  exists link, (charsToRemove (expectedClosing triggerSequence) after).
  split; [exact Hf|].
  destruct (charsToRemove_bounds (expectedClosing triggerSequence) after)
    as (Hle & Hla & Hpre).
  pose proof (expectedClosing_map triggerSequence) as E.
  assert (Hlen : List.length (expectedClosing triggerSequence)
                 = List.length triggerSequence).
  { rewrite E, length_map, length_rev. reflexivity. }
  split; [|split; [lia | rewrite <- E; exact Hpre]].
  unfold onChooseItem_trigger. rewrite Hf. cbn [bind line ch].
  rewrite skipn_app, skipn_all, Nat.sub_diag. cbn [skipn app].
  set (k := charsToRemove (expectedClosing triggerSequence) after) in *.
  assert (Hline : (if 0 <? k
                   then replaceRange [] (List.length before)
                          (List.length before + k) (before ++ after)
                   else before ++ after) = before ++ skipn k after).
  { destruct k as [|k'].
    - reflexivity.
    - cbn [Nat.ltb Nat.leb]. unfold replaceRange.
      rewrite firstn_app, firstn_all, Nat.sub_diag. cbn [firstn app].
      rewrite app_nil_r, skipn_app.
      replace (List.length before + S k' - List.length before) with (S k')
        by lia.
      rewrite skipn_all2 by lia. reflexivity. }
  rewrite Hline. unfold replaceRange.
  rewrite firstn_app, firstn_all, Nat.sub_diag. cbn [firstn].
  rewrite app_nil_r, skipn_app, skipn_all, Nat.sub_diag. cbn [skipn app].
  reflexivity.
Qed.

(** X10: Choosing a file in the trigger-sequence version: the text before the
    cursor stays, the link [format] gives is put at the cursor, and of the
    text after the cursor only leading characters of the closing sequence
    are deleted, at most as many as the trigger sequence is long. *)
Theorem onChooseItem_trigger_line (settings : ZettelLinkSettings)
  (triggerSequence fileName before after : jsstring) :
  exists link k,
    format fileName settings = Normal link /\
    onChooseItem_trigger settings triggerSequence fileName
      {| line := before ++ after; ch := List.length before |}
    = Normal (before ++ link ++ skipn k after) /\
    k <= List.length triggerSequence /\
    firstn k after = firstn k (map autoPair (rev triggerSequence)).
Proof.
  exact (onChooseItem_trigger_spec settings triggerSequence fileName
           before after).
Qed.

(** ** The trigger sequence *)

Lemma nth_error_last {A : Type} (l : list A) (x : A) :
  nth_error (l ++ [x]) (List.length (l ++ [x]) - 1) = Some x.
Proof.
  rewrite length_app. simpl.
  replace (List.length l + 1 - 1) with (List.length l) by lia.
  rewrite nth_error_app2 by lia. rewrite Nat.sub_diag. reflexivity.
Qed.

Lemma onKeydown_prefix_typed (prefix before after : jsstring)
  (last : code_unit) :
  prefix <> [] ->
  onKeydown (prefix ++ [last]) [last]
    (Some {| line := before ++ prefix ++ after;
             ch := List.length before + List.length prefix |})
  = Some {| line := before ++ after; ch := List.length before |}.
Proof.
  intros Hne. unfold onKeydown.
  assert (Hlen : List.length (prefix ++ [last]) = S (List.length prefix)).
  { rewrite length_app. simpl. lia. }
  assert (Hp : 1 <= List.length prefix).
  { destruct prefix; [contradiction | simpl; lia]. }
  destruct (Nat.ltb_spec (List.length (prefix ++ [last])) 2); [lia|].
  rewrite nth_error_last.
  replace (jsstring_eqb [last] [last]) with true
    by (symmetry; apply jsstring_eqb_eq; reflexivity).
  cbn [line ch]. rewrite Hlen.
  replace (S (List.length prefix) - 1) with (List.length prefix) by lia.
  rewrite substring_prefix.
  replace (List.length before + List.length prefix - List.length prefix)
    with (List.length before) by lia.
  rewrite substring_middle.
  replace (jsstring_eqb prefix prefix) with true
    by (symmetry; apply jsstring_eqb_eq; reflexivity).
  f_equal. f_equal. unfold replaceRange.
  rewrite firstn_app, firstn_all, Nat.sub_diag. cbn [firstn app].
  rewrite app_nil_r. f_equal.
  rewrite app_assoc, skipn_app, length_app, Nat.sub_diag.
  rewrite skipn_all2 by (rewrite length_app; lia). reflexivity.
Qed.

(** X12: The listener fires on the trigger sequence: when the text before the
    cursor ends with all of the sequence but its last character and the key
    pressed is that last character, the key does not reach the document, the
    typed part of the sequence is deleted and the modal opens with the
    cursor where the sequence began. *)
Theorem onKeydown_fires (prefix before after : jsstring) (last : code_unit) :
  prefix <> [] ->
  onKeydown (prefix ++ [last]) [last]
    (Some {| line := before ++ prefix ++ after;
             ch := List.length before + List.length prefix |})
  = Some {| line := before ++ after; ch := List.length before |}.
Proof.
  exact (onKeydown_prefix_typed prefix before after last).
Qed.

Lemma onKeydown_fires_witness :
  str "{" <> [] /\
  onKeydown (str "{" ++ [123%N]) [123%N]
    (Some {| line := str "See " ++ str "{" ++ str "}";
             ch := List.length (str "See ") + List.length (str "{") |})
  = Some {| line := str "See " ++ str "}"; ch := List.length (str "See ") |}.
Proof.
  split; [discriminate|].
  apply (onKeydown_fires (str "{") (str "See ") (str "}") 123%N).
  discriminate.
Defined.

(** X13: The listener fires only then: whenever it opens the modal, the trigger
    sequence has at least two characters, the key is its last character, the
    text before the cursor ends with the characters before that one, and the
    editor the modal gets is the line without them. *)
Theorem onKeydown_fires_only (triggerSequence key : jsstring)
  (ed ed' : Editor) :
  onKeydown triggerSequence key (Some ed) = Some ed' ->
  exists prefix last before after,
    prefix <> [] /\
    triggerSequence = prefix ++ [last] /\
    key = [last] /\
    line ed = before ++ prefix ++ after /\
    ch ed = List.length before + List.length prefix /\
    ed' = {| line := before ++ after; ch := List.length before |}.
Proof.
  unfold onKeydown.
  destruct (Nat.ltb_spec (List.length triggerSequence) 2) as [|Hlen];
    [discriminate|].
  destruct (nth_error triggerSequence (List.length triggerSequence - 1))
    as [last|] eqn:Hlast; [|discriminate].
  destruct (jsstring_eqb key [last]) eqn:Hkey; [|discriminate].
  apply jsstring_eqb_eq in Hkey.
  set (p := List.length triggerSequence - 1) in *.
  set (prefix := substring triggerSequence 0 p).
  destruct (jsstring_eqb (substring (line ed) (ch ed - List.length prefix)
                                    (ch ed)) prefix) eqn:Hpre;
    [|discriminate].
  apply jsstring_eqb_eq in Hpre.
  intros H; inversion H; subst ed'; clear H.
  assert (Eprefix : prefix = firstn p triggerSequence).
  { unfold prefix, substring.
    replace (Nat.min 0 _) with 0 by lia.
    replace (Nat.min p _) with p by lia.
    replace (Nat.max 0 p - Nat.min 0 p) with p by lia.
    replace (Nat.min 0 p) with 0 by lia. reflexivity. }
  assert (Hplen : List.length prefix = p).
  { rewrite Eprefix, length_firstn. lia. }
  assert (Etrig : triggerSequence = prefix ++ [last]).
  { rewrite Eprefix, <- (firstn_S_nth_error triggerSequence p last Hlast).
    replace (S p) with (List.length triggerSequence) by lia.
    rewrite firstn_all. reflexivity. }
  rewrite Hplen in *.
  pose proof (substring_length (line ed) (ch ed - p) (ch ed)
                ltac:(lia)) as Hsl.
  rewrite Hpre, Hplen in Hsl.
  assert (Hch : p <= ch ed /\ ch ed <= List.length (line ed)) by lia.
  exists prefix, last, (firstn (ch ed - p) (line ed)), (skipn (ch ed) (line ed)).
  assert (Hbl : List.length (firstn (ch ed - p) (line ed)) = ch ed - p).
  { rewrite length_firstn. lia. }
  split; [intros E; rewrite E in Hplen; simpl in Hplen; lia|].
  split; [exact Etrig|]. split; [exact Hkey|].
  split; [|split; [rewrite Hbl, Hplen; lia | rewrite Hbl; reflexivity]].
  rewrite <- Hpre at 1. unfold substring.
  replace (Nat.min (ch ed - p) _) with (ch ed - p) by lia.
  replace (Nat.min (ch ed) _) with (ch ed) by lia.
  replace (Nat.max (ch ed - p) (ch ed) - Nat.min (ch ed - p) (ch ed))
    with p by lia.
  replace (Nat.min (ch ed - p) (ch ed)) with (ch ed - p) by lia.
  replace (skipn (ch ed) (line ed))
    with (skipn p (skipn (ch ed - p) (line ed))).
  - rewrite firstn_skipn, firstn_skipn. reflexivity.
  - rewrite skipn_skipn. f_equal. lia.
Qed.

Lemma onKeydown_fires_only_witness :
  onKeydown (str "{{") (str "{")
    (Some {| line := str "See {} there"; ch := 5 |})
  = Some {| line := str "See } there"; ch := 4 |} /\
  exists prefix last before after,
    prefix <> [] /\
    str "{{" = prefix ++ [last] /\
    str "{" = [last] /\
    line {| line := str "See {} there"; ch := 5 |}
    = before ++ prefix ++ after /\
    ch {| line := str "See {} there"; ch := 5 |}
    = List.length before + List.length prefix /\
    {| line := str "See } there"; ch := 4 |}
    = {| line := before ++ after; ch := List.length before |}.
Proof.
  split; [reflexivity|].
  apply (onKeydown_fires_only (str "{{") (str "{")
           {| line := str "See {} there"; ch := 5 |}
           {| line := str "See } there"; ch := 4 |}).
  reflexivity.
Defined.

(** X14: Trigger, then choice: after the trigger sequence was typed in front of
    [after] and a file was chosen, the line is the text before the sequence,
    the link, and [after] less its leading auto-paired closers; nothing of
    the trigger sequence is left in the document. *)
Theorem trigger_then_choose (settings : ZettelLinkSettings)
  (prefix before after fileName : jsstring) (last : code_unit) :
  prefix <> [] ->
  exists ed link k,
    onKeydown (prefix ++ [last]) [last]
      (Some {| line := before ++ prefix ++ after;
               ch := List.length before + List.length prefix |}) = Some ed /\
    format fileName settings = Normal link /\
    onChooseItem_trigger settings (prefix ++ [last]) fileName ed
    = Normal (before ++ link ++ skipn k after) /\
    k <= List.length (prefix ++ [last]) /\
    firstn k after = firstn k (map autoPair (rev (prefix ++ [last]))).
Proof.
  intros Hne.
  destruct (onChooseItem_trigger_spec settings (prefix ++ [last]) fileName
              before after) as (link & k & Hf & Hc & Hk & Hpre).
  exists {| line := before ++ after; ch := List.length before |}, link, k.
  split; [exact (onKeydown_prefix_typed prefix before after last Hne)|].
  auto.
Qed.

Lemma trigger_then_choose_witness :
  str "{" <> [] /\
  exists ed link k,
    onKeydown (str "{" ++ [123%N]) [123%N]
      (Some {| line := str "See " ++ str "{" ++ str "} there";
               ch := List.length (str "See ") + List.length (str "{") |})
    = Some ed /\
    format (str "202512270824 Notes") DEFAULT_SETTINGS = Normal link /\
    onChooseItem_trigger DEFAULT_SETTINGS (str "{" ++ [123%N])
      (str "202512270824 Notes") ed
    = Normal (str "See " ++ link ++ skipn k (str "} there")) /\
    k <= List.length (str "{" ++ [123%N]) /\
    firstn k (str "} there")
    = firstn k (map autoPair (rev (str "{" ++ [123%N]))).
Proof.
  split; [discriminate|].
  apply (trigger_then_choose DEFAULT_SETTINGS (str "{") (str "See ")
           (str "} there") (str "202512270824 Notes") 123%N).
  discriminate.
Defined.

Example trigger_then_choose_braces :
  onKeydown (str "{{") (str "{")
    (Some {| line := str "See {} there"; ch := 5 |})
  = Some {| line := str "See } there"; ch := 4 |} /\
  onChooseItem_trigger DEFAULT_SETTINGS (str "{{") (str "202512270824 Notes")
    {| line := str "See } there"; ch := 4 |}
  = Normal (str "See [[202512270824]] Notes there").
Proof. split; reflexivity. Qed.

(** ** The current insertion and the earlier ones *)

Lemma replaceRange_insert (text before after : jsstring) :
  replaceRange text (List.length before) (List.length before)
               (before ++ after)
  = before ++ text ++ after.
Proof.
  unfold replaceRange.
  rewrite firstn_app, firstn_all, Nat.sub_diag. cbn [firstn].
  rewrite app_nil_r, skipn_app, skipn_all, Nat.sub_diag. reflexivity.
Qed.

(** X5: Choosing a file in the current version puts the link between the text
    before the cursor and the text after it; neither is changed. *)
Theorem onChooseItem_inserts (settings : ZettelLinkSettings)
  (fileName before after : jsstring) :
  exists link,
    format fileName settings = Normal link /\
    onChooseItem settings fileName
      {| line := before ++ after; ch := List.length before |}
    = Normal (before ++ link ++ after).
Proof.
  destruct (format_completes fileName settings) as [link Hf].
  exists link. split; [exact Hf|].
  unfold onChooseItem. rewrite Hf. cbn [bind line ch].
  rewrite replaceRange_insert. reflexivity.
Qed.

(** X11: The clean-up of the trigger-sequence version only matters in front of a
    closer: when the text after the cursor does not start with the first
    character of the closing sequence, that version leaves the line as the
    current version does. *)
Theorem onChooseItem_trigger_no_closer (settings : ZettelLinkSettings)
  (triggerSequence fileName : jsstring) (ed : Editor) :
  startsWith (skipn (ch ed) (line ed))
             (firstn 1 (expectedClosing triggerSequence)) = false ->
  onChooseItem_trigger settings triggerSequence fileName ed
  = onChooseItem settings fileName ed.
Proof.
  intros Hs. unfold onChooseItem_trigger, onChooseItem.
  rewrite (charsToRemove_no_closer _ _ Hs). reflexivity.
Qed.

Lemma onChooseItem_trigger_no_closer_witness :
  startsWith (skipn (ch {| line := str "See also"; ch := 4 |})
                    (line {| line := str "See also"; ch := 4 |}))
             (firstn 1 (expectedClosing (str "{{"))) = false /\
  onChooseItem_trigger DEFAULT_SETTINGS (str "{{") (str "Project Ideas")
    {| line := str "See also"; ch := 4 |}
  = onChooseItem DEFAULT_SETTINGS (str "Project Ideas")
      {| line := str "See also"; ch := 4 |}.
Proof.
  split; [reflexivity|].
  apply onChooseItem_trigger_no_closer. reflexivity.
Defined.

Lemma substring_short (s : jsstring) (b : nat) :
  b < 2 -> jsstring_eqb (substring s 0 b) (str "{{") = false.
Proof.
  intros Hb.
  destruct (jsstring_eqb (substring s 0 b) (str "{{")) eqn:E;
    [|reflexivity].
  apply jsstring_eqb_eq in E.
  pose proof (substring_length s 0 b ltac:(lia)) as Hl.
  rewrite E in Hl. simpl in Hl. lia.
Qed.

Lemma onKeydown_three_braces (key : jsstring) (activeLeaf : option Editor) :
  onKeydown (str "{{{") key activeLeaf =
    if jsstring_eqb key (str "{") then
      match activeLeaf with
      | None => None
      | Some ed =>
          if jsstring_eqb (substring (line ed) (ch ed - 2) (ch ed))
                          (str "{{") then
            Some {| line := replaceRange [] (ch ed - 2) (ch ed) (line ed);
                    ch := ch ed - 2 |}
          else None
      end
    else None.
Proof. reflexivity. Qed.

(** X15: The listener of the first version is the later listener with three
    braces for the trigger sequence: as it reads the line when the key goes
    down, before the brace is typed, it needs two braces in the document and
    fires on the third. *)
Theorem onKeydown_braces_three (key : jsstring) (activeLeaf : option Editor) :
  onKeydown_braces key activeLeaf = onKeydown (str "{{{") key activeLeaf.
Proof.
  rewrite onKeydown_three_braces. unfold onKeydown_braces.
  destruct (jsstring_eqb key (str "{")); [|reflexivity].
  destruct activeLeaf as [ed|]; [|reflexivity].
  destruct (Nat.ltb_spec (ch ed) 2) as [Hlt|Hge]; [|reflexivity].
  replace (ch ed - 2) with 0 by lia.
  rewrite (substring_short (line ed) (ch ed) Hlt). reflexivity.
Qed.

Example onKeydown_braces_second_brace :
  onKeydown_braces (str "{") (Some {| line := str "See {"; ch := 5 |}) = None
  /\ onKeydown_braces (str "{") (Some {| line := str "See {{"; ch := 6 |})
     = Some {| line := str "See "; ch := 4 |}.
Proof. split; reflexivity. Qed.

(** ** The suggestion list and the partial matches *)

Lemma filter_filter_implied {A : Type} (p q : A -> bool) (l : list A) :
  (forall x, q x = true -> p x = true) ->
  filter q (filter p l) = filter q l.
Proof.
  intros H. induction l as [|a l IH]; simpl; [reflexivity|].
  destruct (p a) eqn:Hp; simpl.
  - rewrite IH. reflexivity.
  - destruct (q a) eqn:Hq; [|exact IH].
    rewrite (H a Hq) in Hp. discriminate.
Qed.

Section SuggestionProperties.

Variable toLowerCase : jsstring -> jsstring.
Variable name : TFile -> jsstring.

(** X16: With nothing typed, the modal lists every file of the vault, in the
    vault's order (the lower-cased empty string being empty). *)
Theorem getSuggestions_empty_query (vaultFiles : list TFile) :
  toLowerCase [] = [] ->
  getSuggestions toLowerCase name vaultFiles [] = vaultFiles.
Proof.
  intros Hl. unfold getSuggestions. rewrite Hl.
  apply filter_all. intros f. apply includes_empty.
Qed.

(** X17: Typing on narrows the list: when the lower-cased new query contains the
    lower-cased old one, the suggestions for the new query are those among
    the old suggestions that match it, in the same order; no file comes
    back that the old query had excluded. *)
Theorem getSuggestions_narrows (vaultFiles : list TFile)
  (query query' : jsstring) :
  includes (toLowerCase query') (toLowerCase query) = true ->
  getSuggestions toLowerCase name vaultFiles query'
  = getSuggestions toLowerCase name
      (getSuggestions toLowerCase name vaultFiles query) query'.
Proof.
  intros Hq. unfold getSuggestions. symmetry.
  apply filter_filter_implied. intros f Hf.
  exact (includes_trans _ _ _ Hf Hq).
Qed.

(** X18: The same for the resolver's filter: a reference that contains another
    one matches a part of the files the other one matches. *)
Theorem partialMatches_narrows (allFiles : list TFile)
  (linktext linktext' : jsstring) :
  includes (toLowerCase linktext') (toLowerCase linktext) = true ->
  partialMatches toLowerCase linktext' allFiles
  = partialMatches toLowerCase linktext'
      (partialMatches toLowerCase linktext allFiles).
Proof.
  intros Hq. unfold partialMatches. symmetry.
  apply filter_filter_implied. intros f Hf.
  exact (includes_trans _ _ _ Hf Hq).
Qed.

End SuggestionProperties.

Lemma getSuggestions_empty_query_witness :
  asciiToLowerCase [] = [] /\
  getSuggestions asciiToLowerCase path [fileA; fileB; fileC] []
  = [fileA; fileB; fileC].
Proof.
  split; [reflexivity|].
  apply (getSuggestions_empty_query asciiToLowerCase path
           [fileA; fileB; fileC]).
  reflexivity.
Defined.

Lemma getSuggestions_narrows_witness :
  includes (asciiToLowerCase (str "2025-P")) (asciiToLowerCase (str "2025"))
  = true /\
  getSuggestions asciiToLowerCase path [fileA; fileB; fileC] (str "2025-P")
  = getSuggestions asciiToLowerCase path
      (getSuggestions asciiToLowerCase path [fileA; fileB; fileC] (str "2025"))
      (str "2025-P").
Proof.
  split; [reflexivity|].
  apply (getSuggestions_narrows asciiToLowerCase path [fileA; fileB; fileC]
           (str "2025") (str "2025-P")).
  reflexivity.
Defined.

Lemma partialMatches_narrows_witness :
  includes (asciiToLowerCase (str "2025-P")) (asciiToLowerCase (str "2025"))
  = true /\
  partialMatches asciiToLowerCase (str "2025-P") [fileA; fileB; fileC]
  = partialMatches asciiToLowerCase (str "2025-P")
      (partialMatches asciiToLowerCase (str "2025") [fileA; fileB; fileC]).
Proof.
  split; [reflexivity|].
  apply (partialMatches_narrows asciiToLowerCase [fileA; fileB; fileC]
           (str "2025") (str "2025-P")).
  reflexivity.
Defined.

(** ** Loading and saving the settings *)

(** A data file that holds nothing gives the defaults, and one that holds a
    length of zero puts it in the settings, past the guard of the tab. *)
Example loadSettings_scenarios :
  loadSettings None = DEFAULT_SETTINGS /\
  timestampLength
    (loadSettings
       (Some {| data_extractTimestamps := None;
                data_timestampLength := Some 0;
                data_showFullPath := None;
                data_appendFileName := None;
                data_enableLinkResolution := None;
                data_enablePartialMatching := None |})) = 0.
Proof. split; reflexivity. Qed.

(** ** The settings tab *)

Lemma trimStart_all_trimmed (s : jsstring) :
  forallb isTrimmed s = true -> trimStart s = [].
Proof.
  induction s as [|c s IH]; simpl; [reflexivity|].
  intros H. apply andb_true_iff in H as [Hc Hs].
  rewrite Hc. exact (IH Hs).
Qed.

(** X20: An empty or blank length field changes nothing. *)
Theorem onChange_blank_length (value : jsstring) (s : ZettelLinkSettings) :
  forallb isTrimmed value = true ->
  onChange (EditTimestampLength value) s = s.
Proof.
  intros H. unfold onChange, parseInt.
  rewrite (trimStart_all_trimmed value H). reflexivity.
Qed.

Lemma onChange_blank_length_witness :
  forallb isTrimmed (str "  ") = true /\
  onChange (EditTimestampLength (str "  ")) DEFAULT_SETTINGS
  = DEFAULT_SETTINGS.
Proof.
  split; [reflexivity|].
  apply onChange_blank_length. reflexivity.
Defined.

Lemma onChange_timestampLength_positive (e : tab_event)
  (s : ZettelLinkSettings) :
  0 < timestampLength s -> 0 < timestampLength (onChange e s).
Proof.
  intros H. destruct e as [v|v|v|v|v|v]; cbn [onChange timestampLength];
    try exact H.
  destruct (parseInt v) as [num|]; [|exact H].
  destruct (Z.ltb_spec 0 num); [|exact H].
  cbn [timestampLength]. lia.
Qed.

(** X21: However the controls of the tab are used, a positive timestamp length
    stays positive: no text typed into the length field, be it "0", a
    negative number or no number at all, is stored as a length of zero. *)
Theorem edits_timestampLength_positive (es : list tab_event)
  (s : ZettelLinkSettings) :
  0 < timestampLength s -> 0 < timestampLength (edits es s).
Proof.
  unfold edits. revert s.
  induction es as [|e es IH]; intros s H; simpl.
  - exact H.
  - apply IH. apply onChange_timestampLength_positive. exact H.
Qed.

Lemma edits_timestampLength_positive_witness :
  0 < timestampLength DEFAULT_SETTINGS /\
  0 < timestampLength
        (edits [EditTimestampLength (str "0");
                EditTimestampLength (str "-3");
                ToggleAppendFileName false;
                EditTimestampLength (str "8 digits")]
               DEFAULT_SETTINGS).
Proof.
  split; [simpl; lia|].
  apply edits_timestampLength_positive. simpl. lia.
Defined.

Example edits_length_field :
  timestampLength
    (edits [EditTimestampLength (str "0");
            EditTimestampLength (str "-3");
            ToggleAppendFileName false;
            EditTimestampLength (str "8 digits")]
           DEFAULT_SETTINGS) = 8 /\
  timestampLength
    (edits [EditTimestampLength (str "0x10")] DEFAULT_SETTINGS) = 16 /\
  timestampLength
    (edits [EditTimestampLength (str "twelve")] DEFAULT_SETTINGS) = 12.
Proof. repeat split. Qed.

(** ** Installing and removing the override *)

Lemma setupLinkResolution_settled (enabled : bool) (h : Hook) :
  h = freshHook \/
  h = {| cacheMethod := OverrideMethod;
         originalGetFirstLinkpathDest := Some HostMethod |} ->
  setupLinkResolution enabled h =
    if enabled
    then {| cacheMethod := OverrideMethod;
            originalGetFirstLinkpathDest := Some HostMethod |}
    else freshHook.
Proof.
  intros [-> | ->]; destruct enabled; reflexivity.
Qed.

Lemma last_cons {A : Type} (l : list A) : forall a d d',
  last (a :: l) d = last (a :: l) d'.
Proof.
  induction l as [|b l IH]; intros a d d'.
  - reflexivity.
  - change (last (b :: l) d = last (b :: l) d'). apply IH.
Qed.

Lemma fold_setupLinkResolution (saves : list bool) : forall enabled h,
  h = (if enabled : bool
       then {| cacheMethod := OverrideMethod;
               originalGetFirstLinkpathDest := Some HostMethod |}
       else freshHook) ->
  fold_left (fun h enabled => setupLinkResolution enabled h) saves h =
    if last saves enabled
    then {| cacheMethod := OverrideMethod;
            originalGetFirstLinkpathDest := Some HostMethod |}
    else freshHook.
Proof.
  induction saves as [|e saves IH]; intros enabled h Hh.
  - exact Hh.
  - cbn [fold_left].
    rewrite (IH e).
    + destruct saves as [|b saves]; [reflexivity|].
      change (last (e :: b :: saves) enabled) with (last (b :: saves) enabled).
      rewrite (last_cons saves b e enabled). reflexivity.
    + apply setupLinkResolution_settled. rewrite Hh.
      destruct enabled; auto.
Qed.

Lemma hookAfter_settled (onloadEnabled : bool) (saves : list bool) :
  hookAfter onloadEnabled saves =
    if last saves onloadEnabled
    then {| cacheMethod := OverrideMethod;
            originalGetFirstLinkpathDest := Some HostMethod |}
    else freshHook.
Proof.
  unfold hookAfter. apply fold_setupLinkResolution.
  apply setupLinkResolution_settled. left. reflexivity.
Qed.

(** X23: After [onload] and any number of [saveSettings], the override is in
    place exactly when link resolution was enabled at the last of these
    calls, and the function kept as the original is then the host's own:
    a closure is never saved as the original, so the closures do not pile
    up and none ends up calling itself. *)
Theorem hookAfter_last (onloadEnabled : bool) (saves : list bool) :
  cacheMethod (hookAfter onloadEnabled saves)
  = (if last saves onloadEnabled then OverrideMethod else HostMethod) /\
  originalGetFirstLinkpathDest (hookAfter onloadEnabled saves)
  = (if last saves onloadEnabled then Some HostMethod else None).
Proof.
  rewrite hookAfter_settled.
  destruct (last saves onloadEnabled); split; reflexivity.
Qed.

(** X24: Unloading the plugin, after whatever settings history, gives the host
    its own function back. *)
Theorem onunload_restores (onloadEnabled : bool) (saves : list bool) :
  cacheMethod (onunload (hookAfter onloadEnabled saves)) = HostMethod.
Proof.
  rewrite hookAfter_settled.
  destruct (last saves onloadEnabled); reflexivity.
Qed.

(** ** Runs of the resolver *)

Lemma Forall_close {A : Type} (P : A -> Prop) (l : list A) : forall i,
  Forall P l -> Forall P (firstn i l ++ skipn (S i) l).
Proof.
  induction l as [|a l IH]; intros i H.
  - destruct i; constructor.
  - inversion H as [|a' l' Ha Hl]; subst.
    destruct i as [|i].
    + destruct l; exact Hl.
    + simpl. constructor; [exact Ha|]. exact (IH i Hl).
Qed.

Section RunProperties.

Variable toLowerCase : jsstring -> jsstring.

(** What a call of the closure can do to the state: nothing, or open one
    modal over the partial matches, of which there are then at least two. *)
Lemma resolve_state_cases st linktext allFiles file :
  snd (resolve toLowerCase st linktext allFiles file) = st \/
  (file = None /\
   chooserOpen st = false /\
   2 <= List.length (partialMatches toLowerCase linktext allFiles) /\
   fst (resolve toLowerCase st linktext allFiles file) = lastChosenFile st /\
   snd (resolve toLowerCase st linktext allFiles file)
   = openChooserModal linktext
       (partialMatches toLowerCase linktext allFiles) st).
Proof.
  unfold resolve. destruct file as [f|]; [left; reflexivity|].
  destruct (negb (enablePartialMatching (settings st))); [left; reflexivity|].
  cbv zeta.
  destruct (Nat.ltb_spec 1
              (List.length (partialMatches toLowerCase linktext allFiles)))
    as [Hlt|Hge]; cbn [andb].
  - destruct (chooserOpen st); cbn [negb].
    + left. destruct (_ =? 1); reflexivity.
    + right. repeat split; (lia || reflexivity).
  - left. destruct (_ =? 1); reflexivity.
Qed.

Lemma getFirstLinkpathDest_state_cases st linktext allFiles file :
  snd (getFirstLinkpathDest toLowerCase st linktext allFiles file) = st \/
  (file = None /\
   chooserOpen st = false /\
   2 <= List.length (partialMatches toLowerCase linktext allFiles) /\
   fst (getFirstLinkpathDest toLowerCase st linktext allFiles file)
   = lastChosenFile st /\
   snd (getFirstLinkpathDest toLowerCase st linktext allFiles file)
   = openChooserModal linktext
       (partialMatches toLowerCase linktext allFiles) st).
Proof.
  unfold getFirstLinkpathDest.
  destruct (enableLinkResolution (settings st)).
  - apply resolve_state_cases.
  - left. reflexivity.
Qed.

Lemma partialMatches_all_match linktext allFiles :
  Forall (fun f => includes (toLowerCase (basename f))
                            (toLowerCase linktext) = true)
         (partialMatches toLowerCase linktext allFiles).
Proof.
  apply Forall_forall. intros f Hf.
  unfold partialMatches in Hf. apply filter_In in Hf. exact (proj2 Hf).
Qed.

Lemma step_choosers_list_matches st e st' :
  step toLowerCase st e st' ->
  Forall (chooser_lists_matches toLowerCase) (openChoosers st) ->
  Forall (chooser_lists_matches toLowerCase) (openChoosers st').
Proof.
  intros Hstep Hinv.
  destruct Hstep as [st linktext allFiles file | st i m file Hn _
                    | st i m Hn | st i m Hn | st s].
  - destruct (getFirstLinkpathDest_state_cases st linktext allFiles file)
      as [-> | (_ & _ & Hlen & _ & ->)]; [exact Hinv|].
    cbn [openChooserModal openChoosers]. constructor; [|exact Hinv].
    split; [exact Hlen | apply partialMatches_all_match].
  - apply Forall_close. exact Hinv.
  - apply Forall_close. exact Hinv.
  - apply Forall_close. exact Hinv.
  - exact Hinv.
Qed.

(** X25: Every prompt on screen in a reachable state offers at least two files,
    and each file it offers contains, in lower case, the link text the prompt
    was opened for. *)
Theorem reachable_choosers_list_matches st :
  reachable toLowerCase st ->
  Forall (chooser_lists_matches toLowerCase) (openChoosers st).
Proof.
  induction 1 as [s | st e st' _ IH Hstep].
  - constructor.
  - exact (step_choosers_list_matches st e st' Hstep IH).
Qed.

(** X26: The stored choice changes only when the user answers a prompt, and
    then to the answer: the file clicked, or null for Cancel.  No request
    and no change of settings writes it. *)
Theorem step_lastChosenFile st e st' :
  step toLowerCase st e st' ->
  lastChosenFile st' <> lastChosenFile st ->
  (exists i f, e = ClickItem i f /\ lastChosenFile st' = Some f) \/
  (exists i, e = ClickCancel i /\ lastChosenFile st' = None).
Proof.
  intros Hstep Hne.
  destruct Hstep as [st linktext allFiles file | st i m file Hn _
                    | st i m Hn | st i m Hn | st s].
  - exfalso. apply Hne.
    destruct (getFirstLinkpathDest_state_cases st linktext allFiles file)
      as [-> | (_ & _ & _ & _ & ->)]; reflexivity.
  - left. exists i, file. split; reflexivity.
  - right. exists i. split; reflexivity.
  - exfalso. apply Hne. reflexivity.
  - exfalso. apply Hne. reflexivity.
Qed.

(** X27: Once the user has picked [f], the next request that finds several
    matches is answered with [f] while its own prompt opens, whatever link
    text it asks for and whatever files match it. *)
Theorem resolve_after_pick st i f st' linktext allFiles :
  step toLowerCase st (ClickItem i f) st' ->
  enablePartialMatching (settings st') = true ->
  2 <= List.length (partialMatches toLowerCase linktext allFiles) ->
  resolve toLowerCase st' linktext allFiles None
  = (Some f,
     openChooserModal linktext
       (partialMatches toLowerCase linktext allFiles) st').
Proof.
  intros Hstep Hp Hlen.
  inversion Hstep; subst.
  rewrite (resolve_fallback toLowerCase _ linktext allFiles Hp).
  destruct (partialMatches toLowerCase linktext allFiles) as [|a [|b l]];
    simpl in Hlen; try lia.
  reflexivity.
Qed.

Lemma step_flag_stuck st e st' :
  step toLowerCase st e st' -> flag_stuck st ->
  flag_stuck st' /\ answered_without_prompt toLowerCase e.
Proof.
  intros Hstep [Hflag Hnone].
  destruct Hstep as [st linktext allFiles file | st i m file Hn _
                    | st i m Hn | st i m Hn | st s].
  - assert (Hst : snd (getFirstLinkpathDest toLowerCase st linktext
                         allFiles file) = st).
    { destruct (getFirstLinkpathDest_state_cases st linktext allFiles file)
        as [E | (_ & Hc & _)]; [exact E|]. rewrite Hflag in Hc. discriminate. }
    rewrite Hst. split; [split; assumption|].
    destruct file as [f|]; [exact I|].
    cbn [answered_without_prompt]. unfold getFirstLinkpathDest.
    destruct (enableLinkResolution (settings st)); [|left; reflexivity].
    destruct (enablePartialMatching (settings st)) eqn:Hp.
    + rewrite (resolve_fallback toLowerCase st linktext allFiles Hp), Hflag.
      destruct (partialMatches toLowerCase linktext allFiles) as [|a [|b l]].
      * left. reflexivity.
      * right. exists a. split; reflexivity.
      * left. reflexivity.
    + unfold resolve. rewrite Hp. left. reflexivity.
  - rewrite Hnone in Hn. destruct i; discriminate.
  - rewrite Hnone in Hn. destruct i; discriminate.
  - rewrite Hnone in Hn. destruct i; discriminate.
  - split; [split; assumption | exact I].
Qed.

(** X28: With the flag set and no modal on screen, which is how Escape leaves
    the plugin, things stay that way whatever happens next: no request opens
    a prompt any more, and a request without a default resolution returns
    null unless exactly one candidate matches. *)
Theorem run_flag_stuck st es st' :
  run toLowerCase st es st' ->
  flag_stuck st ->
  flag_stuck st' /\ Forall (answered_without_prompt toLowerCase) es.
Proof.
  induction 1 as [st | st e st1 es st2 Hstep _ IH]; intros Hs.
  - split; [exact Hs | constructor].
  - destruct (step_flag_stuck st e st1 Hstep Hs) as [Hs1 He].
    destruct (IH Hs1) as [Hs2 Hes].
    split; [exact Hs2 | constructor; assumption].
Qed.

Section Vault.

Variable V : TFile -> Prop.

Lemma partialMatches_in_vault linktext allFiles :
  Forall V allFiles -> Forall V (partialMatches toLowerCase linktext allFiles).
Proof.
  intros H. apply Forall_forall. intros f Hf.
  unfold partialMatches in Hf. apply filter_In in Hf.
  exact (proj1 (Forall_forall V allFiles) H f (proj1 Hf)).
Qed.

Lemma resolve_result_in_vault st linktext allFiles file f :
  state_files_in V st ->
  Forall V allFiles ->
  (forall g, file = Some g -> V g) ->
  fst (resolve toLowerCase st linktext allFiles file) = Some f -> V f.
Proof.
  intros [Hlast _] Hall Hfile.
  pose proof (partialMatches_in_vault linktext allFiles Hall) as Hm.
  unfold resolve. destruct file as [g|].
  - cbn [fst]. intros E. apply Hfile. exact E.
  - destruct (negb (enablePartialMatching (settings st)));
      [discriminate|].
    cbv zeta.
    destruct ((1 <? _) && negb (chooserOpen st)).
    + cbn [fst]. apply Hlast.
    + destruct (_ =? 1); [|discriminate].
      cbn [fst].
      destruct (partialMatches toLowerCase linktext allFiles) as [|a l];
        [discriminate|].
      cbn [nth_error]. intros E; inversion E; subst.
      inversion Hm; assumption.
Qed.

Lemma step_files_in_vault st e st' :
  step toLowerCase st e st' ->
  state_files_in V st ->
  event_input_in V e ->
  state_files_in V st' /\ event_result_in V e.
Proof.
  intros Hstep Hinv Hin.
  destruct Hstep as [st linktext allFiles file | st i m file Hn Hfile
                    | st i m Hn | st i m Hn | st s].
  - destruct Hin as [Hall Hf]. split.
    + destruct (getFirstLinkpathDest_state_cases st linktext allFiles file)
        as [-> | (_ & _ & _ & _ & ->)]; [exact Hinv|].
      destruct Hinv as [Hlast Hmod]. split; [exact Hlast|].
      cbn [openChooserModal openChoosers]. constructor; [|exact Hmod].
      apply partialMatches_in_vault. exact Hall.
    + cbn [event_result_in]. unfold getFirstLinkpathDest.
      destruct (enableLinkResolution (settings st)).
      * intros f. apply resolve_result_in_vault; assumption.
      * cbn [fst]. exact Hf.
  - destruct Hinv as [Hlast Hmod]. split; [|exact I]. split.
    + cbn [closeChooser chooserCallback lastChosenFile].
      intros f E; inversion E; subst.
      apply nth_error_In in Hn.
      pose proof (proj1 (Forall_forall _ _) Hmod m Hn) as Hm.
      exact (proj1 (Forall_forall _ _) Hm f Hfile).
    + apply Forall_close. exact Hmod.
  - destruct Hinv as [Hlast Hmod]. split; [|exact I]. split.
    + cbn [closeChooser chooserCallback lastChosenFile]. discriminate.
    + apply Forall_close. exact Hmod.
  - destruct Hinv as [Hlast Hmod]. split; [|exact I]. split.
    + exact Hlast.
    + apply Forall_close. exact Hmod.
  - split; [exact Hinv | exact I].
Qed.

Lemma run_files_in_vault st es st' :
  run toLowerCase st es st' ->
  state_files_in V st ->
  Forall (event_input_in V) es ->
  state_files_in V st' /\ Forall (event_result_in V) es.
Proof.
  induction 1 as [st | st e st1 es st2 Hstep _ IH]; intros Hinv Hin.
  - split; [exact Hinv | constructor].
  - inversion Hin as [|e' es' He Hes]; subst.
    destruct (step_files_in_vault st e st1 Hstep Hinv He) as [Hinv1 Hr].
    destruct (IH Hinv1 Hes) as [Hinv2 Hrs].
    split; [exact Hinv2 | constructor; assumption].
Qed.

(** X29: The resolver hands out no file of its own making: along any run from a
    fresh plugin, if the candidates and the default resolutions of the
    requests all come from a set of files, then so does every file a
    request returns, and so does the stored choice. *)
Theorem run_results_in_vault s es st :
  run toLowerCase (initial s) es st ->
  Forall (event_input_in V) es ->
  Forall (event_result_in V) es /\
  (forall f, lastChosenFile st = Some f -> V f).
Proof.
  intros Hrun Hin.
  assert (Hinit : state_files_in V (initial s)).
  { split; [discriminate | constructor]. }
  destruct (run_files_in_vault (initial s) es st Hrun Hinit Hin)
    as [[Hlast _] Hres].
  split; assumption.
Qed.

End Vault.

End RunProperties.

(** ** Concrete runs, continued *)

Lemma reachable_chooser_dismissed :
  reachable asciiToLowerCase chooser_dismissed.
Proof.
  apply (reachable_step asciiToLowerCase chooser_pending (Dismiss 0)).
  - exact reachable_chooser_pending.
  - exact (step_dismiss asciiToLowerCase chooser_pending 0 chooser2025
             eq_refl).
Qed.

Lemma step_pick_fileB :
  step asciiToLowerCase chooser_pending (ClickItem 0 fileB) chooser_answered.
Proof.
  apply (step_click_item asciiToLowerCase chooser_pending 0 chooser2025 fileB).
  - reflexivity.
  - simpl. auto.
Qed.

Lemma reachable_choosers_list_matches_witness :
  reachable asciiToLowerCase chooser_reopened /\
  Forall (chooser_lists_matches asciiToLowerCase)
         (openChoosers chooser_reopened).
Proof.
  split; [exact reachable_chooser_reopened|].
  apply (reachable_choosers_list_matches asciiToLowerCase chooser_reopened).
  exact reachable_chooser_reopened.
Defined.

Lemma step_lastChosenFile_witness :
  step asciiToLowerCase chooser_pending (ClickItem 0 fileB) chooser_answered
  /\ lastChosenFile chooser_answered <> lastChosenFile chooser_pending
  /\ ((exists i f, ClickItem 0 fileB = ClickItem i f /\
                   lastChosenFile chooser_answered = Some f) \/
      (exists i, ClickItem 0 fileB = ClickCancel i /\
                 lastChosenFile chooser_answered = None)).
Proof.
  split; [exact step_pick_fileB|]. split; [discriminate|].
  apply (step_lastChosenFile asciiToLowerCase chooser_pending
           (ClickItem 0 fileB) chooser_answered).
  - exact step_pick_fileB.
  - discriminate.
Defined.

Lemma resolve_after_pick_witness :
  step asciiToLowerCase chooser_pending (ClickItem 0 fileB) chooser_answered
  /\ enablePartialMatching (settings chooser_answered) = true
  /\ 2 <= List.length
            (partialMatches asciiToLowerCase (str "e") [fileA; fileB; fileC])
  /\ resolve asciiToLowerCase chooser_answered (str "e")
       [fileA; fileB; fileC] None
     = (Some fileB,
        openChooserModal (str "e")
          (partialMatches asciiToLowerCase (str "e") [fileA; fileB; fileC])
          chooser_answered).
Proof.
  split; [exact step_pick_fileB|]. split; [reflexivity|].
  split; [vm_compute; lia|].
  apply (resolve_after_pick asciiToLowerCase chooser_pending 0 fileB
           chooser_answered (str "e") [fileA; fileB; fileC]).
  - exact step_pick_fileB.
  - reflexivity.
  - vm_compute. lia.
Defined.

Lemma run_request_when_dismissed :
  run asciiToLowerCase chooser_dismissed
      [Request (str "2025") [fileA; fileB] None None] chooser_dismissed.
Proof.
  apply (run_cons asciiToLowerCase chooser_dismissed
           (Request (str "2025") [fileA; fileB] None None) chooser_dismissed).
  - exact (step_request asciiToLowerCase chooser_dismissed (str "2025")
             [fileA; fileB] None).
  - apply run_nil.
Qed.

Lemma run_flag_stuck_witness :
  run asciiToLowerCase chooser_dismissed
      [Request (str "2025") [fileA; fileB] None None] chooser_dismissed /\
  flag_stuck chooser_dismissed /\
  flag_stuck chooser_dismissed /\
  Forall (answered_without_prompt asciiToLowerCase)
         [Request (str "2025") [fileA; fileB] None None].
Proof.
  split; [exact run_request_when_dismissed|].
  split; [split; reflexivity|].
  apply (run_flag_stuck asciiToLowerCase chooser_dismissed
           [Request (str "2025") [fileA; fileB] None None] chooser_dismissed).
  - exact run_request_when_dismissed.
  - split; reflexivity.
Defined.

Lemma run_prompt_and_pick :
  run asciiToLowerCase (initial DEFAULT_SETTINGS)
      [Request (str "2025") [fileA; fileB] None None; ClickItem 0 fileB]
      chooser_answered.
Proof.
  apply (run_cons asciiToLowerCase (initial DEFAULT_SETTINGS)
           (Request (str "2025") [fileA; fileB] None None) chooser_pending).
  - exact (step_request asciiToLowerCase (initial DEFAULT_SETTINGS)
             (str "2025") [fileA; fileB] None).
  - apply (run_cons asciiToLowerCase chooser_pending (ClickItem 0 fileB)
             chooser_answered).
    + exact step_pick_fileB.
    + apply run_nil.
Qed.

Lemma inputs_from_two_files :
  Forall (event_input_in (fun f => In f [fileA; fileB]))
         [Request (str "2025") [fileA; fileB] None None; ClickItem 0 fileB].
Proof.
  constructor.
  - split.
    + constructor; [simpl; auto|]. constructor; [simpl; auto|]. constructor.
    + discriminate.
  - constructor; [exact I | constructor].
Qed.

Lemma run_results_in_vault_witness :
  run asciiToLowerCase (initial DEFAULT_SETTINGS)
      [Request (str "2025") [fileA; fileB] None None; ClickItem 0 fileB]
      chooser_answered /\
  Forall (event_input_in (fun f => In f [fileA; fileB]))
         [Request (str "2025") [fileA; fileB] None None; ClickItem 0 fileB] /\
  Forall (event_result_in (fun f => In f [fileA; fileB]))
         [Request (str "2025") [fileA; fileB] None None; ClickItem 0 fileB] /\
  (forall f, lastChosenFile chooser_answered = Some f ->
             In f [fileA; fileB]).
Proof.
  split; [exact run_prompt_and_pick|].
  split; [exact inputs_from_two_files|].
  apply (run_results_in_vault asciiToLowerCase (fun f => In f [fileA; fileB])
           DEFAULT_SETTINGS
           [Request (str "2025") [fileA; fileB] None None; ClickItem 0 fileB]
           chooser_answered).
  - exact run_prompt_and_pick.
  - exact inputs_from_two_files.
Defined.

(** ** From the formatter to the resolver *)

Lemma filter_unique {A : Type} (p : A -> bool) (x : A) (l : list A) :
  NoDup l -> In x l -> p x = true ->
  (forall y, In y l -> y <> x -> p y = false) ->
  filter p l = [x].
Proof.
  induction l as [|a l IH]; intros Hnd Hin Hx Hothers; [contradiction|].
  inversion Hnd as [|a' l' Hnotin Hnd']; subst.
  assert (Hrest : forall l0, ~ In x l0 ->
                  (forall y, In y l0 -> y <> x -> p y = false) ->
                  filter p l0 = []).
  { intros l0 Hn Ho. induction l0 as [|b l0 IH0]; [reflexivity|].
    simpl. rewrite (Ho b (or_introl eq_refl)).
    - apply IH0.
      + intros Hb. apply Hn. right. exact Hb.
      + intros y Hy. apply Ho. right. exact Hy.
    - intros ->. apply Hn. left. reflexivity. }
  simpl. destruct Hin as [-> | Hin].
  - rewrite Hx. f_equal. apply Hrest; [exact Hnotin|].
    intros y Hy. apply Hothers. right. exact Hy.
  - assert (Hax : a <> x) by (intros ->; contradiction).
    rewrite (Hothers a (or_introl eq_refl) Hax).
    apply IH; try assumption.
    intros y Hy. apply Hothers. right. exact Hy.
Qed.

Lemma asciiToLowerCase_digits (d s : jsstring) :
  forallb isDecimalDigit d = true ->
  asciiToLowerCase (d ++ s) = d ++ asciiToLowerCase s.
Proof.
  intros Hd. unfold asciiToLowerCase. rewrite map_app. f_equal.
  induction d as [|c d IH]; [reflexivity|].
  simpl in Hd. apply andb_true_iff in Hd as [Hc Hd].
  simpl. rewrite (IH Hd). f_equal.
  unfold isDecimalDigit in Hc. apply andb_true_iff in Hc as [_ Hc].
  apply N.leb_le in Hc.
  destruct (N.leb_spec 65 c); [lia | reflexivity].
Qed.

Section RoundTrip.

Variable toLowerCase : jsstring -> jsstring.

(** X30: The link the formatter makes leads back to the file.  Let lower-casing
    leave a run of digits at the start of a string in place (as it does).
    When the basename of [f] matches the timestamp pattern with timestamp
    [t], the formatter links [t]; and a request for the link text [t] that
    the host could not resolve itself returns [f], with no prompt, provided
    partial matching is on and no other file of the vault has [t] in its
    lower-cased name. *)
Theorem timestamp_link_resolves st (c : ZettelLinkSettings) (f : TFile)
  (allFiles : list TFile) (w t r : jsstring) :
  (forall d s, forallb isDecimalDigit d = true ->
               toLowerCase (d ++ s) = d ++ toLowerCase s) ->
  toLowerCase [] = [] ->
  extractTimestamps c = true ->
  timestampPattern_match (timestampLength c) (basename f) = Some [w; t; r] ->
  enablePartialMatching (settings st) = true ->
  NoDup allFiles ->
  In f allFiles ->
  (forall g, In g allFiles -> g <> f ->
             includes (toLowerCase (basename g)) t = false) ->
  (exists title,
     format (basename f) c = Normal (str "[[" ++ t ++ str "]]" ++ title)) /\
  resolve toLowerCase st t allFiles None = (Some f, st).
Proof.
  intros Hdig Hnil He Hm Hp Hnd Hin Hothers.
  apply timestampPattern_match_iff in Hm
    as (d & r' & E & Hb & Hl & Hd & Hr).
  inversion E; subst w d r'; clear E.
  assert (Ht : toLowerCase t = t).
  { rewrite <- (app_nil_r t) at 1. rewrite (Hdig t [] Hd), Hnil.
    apply app_nil_r. }
  split.
  - rewrite Hb, (format_timestamp_split t r c He Hl Hd Hr).
    destruct (appendFileName c && truthy (trim r)).
    + exists (str " " ++ trim r). reflexivity.
    + exists []. rewrite app_nil_r. reflexivity.
  - rewrite (resolve_fallback toLowerCase st t allFiles Hp).
    assert (E : partialMatches toLowerCase t allFiles = [f]).
    { unfold partialMatches. rewrite Ht.
      apply filter_unique; try assumption.
      rewrite Hb, (Hdig t r Hd). apply includes_true.
      exists [], (toLowerCase r). reflexivity. }
    rewrite E. reflexivity.
Qed.

End RoundTrip.

Lemma timestamp_link_resolves_witness :
  (forall d s, forallb isDecimalDigit d = true ->
               asciiToLowerCase (d ++ s) = d ++ asciiToLowerCase s) /\
  asciiToLowerCase [] = [] /\
  extractTimestamps (mkSettings true 4 true) = true /\
  timestampPattern_match (timestampLength (mkSettings true 4 true))
    (basename fileB)
  = Some [str "2025-plan"; str "2025"; str "-plan"] /\
  enablePartialMatching (settings (initial DEFAULT_SETTINGS)) = true /\
  NoDup [fileB; fileC] /\
  In fileB [fileB; fileC] /\
  (forall g, In g [fileB; fileC] -> g <> fileB ->
             includes (asciiToLowerCase (basename g)) (str "2025") = false) /\
  (exists title,
     format (basename fileB) (mkSettings true 4 true)
     = Normal (str "[[" ++ str "2025" ++ str "]]" ++ title)) /\
  resolve asciiToLowerCase (initial DEFAULT_SETTINGS) (str "2025")
    [fileB; fileC] None
  = (Some fileB, initial DEFAULT_SETTINGS).
Proof.
  assert (Hnd : NoDup [fileB; fileC]).
  { constructor; [simpl; intros [H|[]]; discriminate H|].
    constructor; [simpl; tauto | constructor]. }
  assert (Hothers : forall g, In g [fileB; fileC] -> g <> fileB ->
             includes (asciiToLowerCase (basename g)) (str "2025") = false).
  { intros g [<- | [<- | []]] Hne; [contradiction | reflexivity]. }
  split; [exact asciiToLowerCase_digits|].
  split; [reflexivity|]. split; [reflexivity|]. split; [reflexivity|].
  split; [reflexivity|]. split; [exact Hnd|]. split; [simpl; auto|].
  split; [exact Hothers|].
  apply (timestamp_link_resolves asciiToLowerCase (initial DEFAULT_SETTINGS)
           (mkSettings true 4 true) fileB [fileB; fileC]
           (str "2025-plan") (str "2025") (str "-plan"));
    try reflexivity; try assumption.
  - exact asciiToLowerCase_digits.
  - simpl. auto.
Defined.

(** ** The length field shows what it accepts *)

Lemma digit_cases (c : code_unit) :
  isDecimalDigit c = true ->
  (c = 48 \/ c = 49 \/ c = 50 \/ c = 51 \/ c = 52 \/
   c = 53 \/ c = 54 \/ c = 55 \/ c = 56 \/ c = 57)%N.
Proof.
  unfold isDecimalDigit. intros H.
  apply andb_true_iff in H as [H1 H2]. apply N.leb_le in H1, H2. lia.
Qed.

Lemma digitValue_decimal (c : code_unit) :
  isDecimalDigit c = true -> digitValue 10 c = Some (Z.of_N c - 48)%Z.
Proof.
  intros H. unfold digitValue. rewrite H.
  unfold isDecimalDigit in H.
  apply andb_true_iff in H as [H1 H2]. apply N.leb_le in H1, H2.
  destruct (Z.ltb_spec (Z.of_N c - 48) 10); [reflexivity | lia].
Qed.

(** The value of a string of decimal digits, read from the left. *)
Lemma parseDigits_decimal (s : jsstring) : forall a,
  forallb isDecimalDigit s = true ->
  parseDigits 10 (Some a) s
  = Some (fold_left (fun a (c : code_unit) => 10 * a + (Z.of_N c - 48))%Z s a).
Proof.
  induction s as [|c s IH]; intros a H; [reflexivity|].
  simpl in H. apply andb_true_iff in H as [Hc Hs].
  cbn [parseDigits fold_left]. rewrite (digitValue_decimal c Hc).
  cbn [orElse]. apply IH. exact Hs.
Qed.

Lemma parseInt_decimal (c : code_unit) (s : jsstring) :
  isDecimalDigit c = true ->
  forallb isDecimalDigit s = true ->
  parseInt (c :: s)
  = Some (fold_left (fun a (c : code_unit) => 10 * a + (Z.of_N c - 48))%Z (c :: s) 0%Z).
Proof.
  intros Hc Hs.
  assert (Hd : parseDigits 10 None (c :: s)
               = Some (fold_left (fun a (c : code_unit) => 10 * a + (Z.of_N c - 48))%Z
                                 (c :: s) 0%Z)).
  { cbn [parseDigits fold_left]. rewrite (digitValue_decimal c Hc).
    cbn [orElse]. apply parseDigits_decimal. exact Hs. }
  unfold parseInt. cbn [trimStart].
  rewrite (isDecimalDigit_not_trimmed c Hc).
  destruct s as [|c2 s2].
  - destruct (digit_cases c Hc)
      as [->|[->|[->|[->|[->|[->|[->|[->|[->| ->]]]]]]]]];
      cbv iota beta; rewrite Hd; f_equal; lia.
  - simpl in Hs. apply andb_true_iff in Hs as [Hc2 _].
    destruct (digit_cases c Hc)
      as [->|[->|[->|[->|[->|[->|[->|[->|[->| ->]]]]]]]]];
      try (cbv iota beta; rewrite Hd; f_equal; lia).
    destruct (digit_cases c2 Hc2)
      as [->|[->|[->|[->|[->|[->|[->|[->|[->| ->]]]]]]]]];
      cbv iota beta; rewrite Hd; f_equal; lia.
Qed.

Lemma decimalDigits_app (fuel : nat) : forall n acc,
  decimalDigits fuel n acc = decimalDigits fuel n [] ++ acc.
Proof.
  induction fuel as [|fuel IH]; intros n acc; [reflexivity|].
  cbn [decimalDigits]. destruct (n <? 10); [reflexivity|].
  rewrite (IH (n / 10) (_ :: acc)), (IH (n / 10) [_]).
  rewrite <- app_assoc. reflexivity.
Qed.

Lemma decimal_digit_char (n : nat) :
  isDecimalDigit (N.of_nat (48 + n mod 10)) = true /\
  (Z.of_N (N.of_nat (48 + n mod 10)) - 48 = Z.of_nat (n mod 10))%Z.
Proof.
  pose proof (Nat.mod_upper_bound n 10 ltac:(lia)) as Hm.
  split; [|lia].
  unfold isDecimalDigit. apply andb_true_iff.
  split; apply N.leb_le; lia.
Qed.

Lemma decimalDigits_value (fuel : nat) : forall n,
  n < fuel ->
  decimalDigits fuel n [] <> [] /\
  forallb isDecimalDigit (decimalDigits fuel n []) = true /\
  fold_left (fun a (c : code_unit) => 10 * a + (Z.of_N c - 48))%Z
            (decimalDigits fuel n []) 0%Z = Z.of_nat n.
Proof.
  induction fuel as [|fuel IH]; intros n Hn; [lia|].
  cbn [decimalDigits].
  destruct (decimal_digit_char n) as [Hc Hv].
  set (d := N.of_nat (48 + n mod 10)) in *.
  destruct (Nat.ltb_spec n 10) as [Hlt|Hge].
  - split; [discriminate|]. split; [cbn [forallb]; rewrite Hc; reflexivity|].
    cbn [fold_left]. rewrite Hv, Nat.mod_small by exact Hlt. lia.
  - assert (Hdiv : n / 10 < fuel).
    { pose proof (Nat.div_lt n 10 ltac:(lia) ltac:(lia)). lia. }
    destruct (IH (n / 10) Hdiv) as (Hne & Hall & Hval).
    rewrite decimalDigits_app. split; [|split].
    + intros E. apply app_eq_nil in E as [E _]. contradiction.
    + rewrite forallb_app, Hall. cbn [forallb andb]. rewrite Hc.
      reflexivity.
    + rewrite fold_left_app, Hval. cbn [fold_left]. rewrite Hv.
      pose proof (Nat.div_mod_eq n 10). lia.
Qed.

Lemma parseInt_decimalString (n : nat) :
  parseInt (decimalString n) = Some (Z.of_nat n).
Proof.
  unfold decimalString.
  destruct (decimalDigits_value (S n) n ltac:(lia)) as (Hne & Hall & Hval).
  destruct (decimalDigits (S n) n []) as [|c s]; [contradiction|].
  simpl in Hall. apply andb_true_iff in Hall as [Hc Hs].
  rewrite (parseInt_decimal c s Hc Hs), Hval. reflexivity.
Qed.

(** X22: The length field accepts what it shows, within the safe range:
    typing the decimal digits of a positive number below 2^53 stores that
    number and touches no other setting, so that re-entering the length on
    display changes nothing. *)
Theorem onChange_decimal_length (n : nat) (s : ZettelLinkSettings) :
  isSafeInteger n ->
  0 < n ->
  onChange (EditTimestampLength (decimalString n)) s = {|
    extractTimestamps := extractTimestamps s;
    timestampLength := n;
    showFullPath := showFullPath s;
    appendFileName := appendFileName s;
    enableLinkResolution := enableLinkResolution s;
    enablePartialMatching := enablePartialMatching s |} /\
  (n = timestampLength s ->
   onChange (EditTimestampLength (decimalString n)) s = s).
Proof.
  intros _ Hn.
  assert (E : onChange (EditTimestampLength (decimalString n)) s = {|
    extractTimestamps := extractTimestamps s;
    timestampLength := n;
    showFullPath := showFullPath s;
    appendFileName := appendFileName s;
    enableLinkResolution := enableLinkResolution s;
    enablePartialMatching := enablePartialMatching s |}).
  { cbn [onChange]. rewrite parseInt_decimalString.
    destruct (Z.ltb_spec 0 (Z.of_nat n)); [|lia].
    rewrite Nat2Z.id. reflexivity. }
  split; [exact E|].
  intros ->. rewrite E. destruct s; reflexivity.
Qed.

Lemma onChange_decimal_length_witness :
  isSafeInteger 8 /\
  0 < 8 /\
  onChange (EditTimestampLength (decimalString 8)) DEFAULT_SETTINGS = {|
    extractTimestamps := extractTimestamps DEFAULT_SETTINGS;
    timestampLength := 8;
    showFullPath := showFullPath DEFAULT_SETTINGS;
    appendFileName := appendFileName DEFAULT_SETTINGS;
    enableLinkResolution := enableLinkResolution DEFAULT_SETTINGS;
    enablePartialMatching := enablePartialMatching DEFAULT_SETTINGS |} /\
  (8 = timestampLength DEFAULT_SETTINGS ->
   onChange (EditTimestampLength (decimalString 8)) DEFAULT_SETTINGS
   = DEFAULT_SETTINGS).
Proof.
  split; [reflexivity|]. split; [lia|].
  apply (onChange_decimal_length 8 DEFAULT_SETTINGS); [reflexivity | lia].
Defined.

Example decimalString_twelve : decimalString 12 = str "12".
Proof. reflexivity. Qed.
